(** * ExpenseTracker: a shallow embedding of [main.py]

    The program is a FastMCP server with three tools ([add_expense],
    [list_expenses], [summarize]) and one resource ([categories]) over a
    single SQLite table [expenses].  The definitions come first:

    - [Text]: byte strings with the comparison SQLite uses for TEXT
      values (BINARY collation), Python's [str.lower] and [in];
    - [Sorting]: the sorter behind [ORDER BY];
    - the store: rows, the AUTOINCREMENT counter, the statements the
      program issues and a cursor-level model of the DB-API;
    - the handlers, written in a state-and-exception monad that follows
      the [try]/[except] and [with] blocks of the source;
    - the vocabulary the statements use, and the data of the runs.

    The facts follow, handler by handler, and the file closes with
    concrete runs.  [print] calls write to the log and are left out. *)

From Stdlib Require Import ZArith List String Ascii Bool Lia.
From Stdlib Require Import Sorting.Sorted Sorting.Permutation.
From Stdlib Require Import Structures.OrdersEx Classes.RelationClasses.
Import ListNotations.

Set Warnings "-register-all".

Local Open Scope Z_scope.
Local Open Scope list_scope.

(* ================================================================= *)
(** ** Text *)

Module Text.

(** SQLite compares TEXT values under the BINARY collation with
    [memcmp]; on strings of bytes that is [String.compare]. *)

Definition le (a b : string) : bool := String.leb a b.
Definition ge (a b : string) : bool := String.leb b a.
Definition lt (a b : string) : bool := String.ltb a b.

(** Python truthiness of a string: only [""] is falsy. *)
Definition nonempty (s : string) : bool :=
  match s with EmptyString => false | String _ _ => true end.

(** [str.lower] on the ASCII letters.  The program only asks whether
    the lowered text contains ["readonly"]; no character outside
    [A-Z] lowers to one of the letters of that word, so the bytes of
    other characters are left as they are. *)
Definition lower_ascii (c : ascii) : ascii :=
  let n := nat_of_ascii c in
  if (andb (Nat.leb 65 n) (Nat.leb n 90)) then ascii_of_nat (n + 32) else c.

Fixpoint lower (s : string) : string :=
  match s with
  | EmptyString => EmptyString
  | String c t => String (lower_ascii c) (lower t)
  end.

(** [needle in haystack]. *)
Fixpoint contains (needle hay : string) : bool :=
  if String.prefix needle hay then true
  else match hay with
       | EmptyString => false
       | String _ t => contains needle t
       end.

(** Zero-padded decimal, as [%0*d] prints a non-negative number: the
    [width] low digits, most significant first; a number with more
    digits keeps them all. *)
Definition digit (n : nat) : ascii := ascii_of_nat (48 + Nat.modulo n 10).

Fixpoint digits_rev (fuel n : nat) : list ascii :=
  match fuel with
  | O => []
  | S f => if Nat.ltb n 10 then [digit n]
           else digit n :: digits_rev f (Nat.div n 10)
  end.

Definition pad (width n : nat) : string :=
  let ds := digits_rev (S n) n in
  string_of_list_ascii
    (repeat "0"%char (width - List.length ds) ++ rev ds).

End Text.

(* ================================================================= *)
(** ** Sorting *)

(** The sorter behind [ORDER BY]: a stable insertion sort on a boolean
    "comes no later than" test.  SQL leaves the order of rows that tie
    on the sort key open; the theorems below only use that the result
    is an ordered rearrangement. *)

Module Sorting.
Section Sorter.

Context {A : Type} (before : A -> A -> bool).

Fixpoint insert (x : A) (l : list A) : list A :=
  match l with
  | [] => [x]
  | y :: t => if before x y then x :: y :: t else y :: insert x t
  end.

Fixpoint sort (l : list A) : list A :=
  match l with
  | [] => []
  | x :: t => insert x (sort t)
  end.

Definition ordered (l : list A) : Prop :=
  StronglySorted (fun x y => before x y = true) l.

End Sorter.
End Sorting.

(* ================================================================= *)
(** ** Values of the program *)

(** SQLite's REAL.  The handlers never compute with amounts themselves:
    they bind them to statements and hand back what the engine
    returns.  The development is therefore parametric in the carrier
    and in the engine's [SUM] and comparison; the comparison SQLite
    sorts by is a total preorder on every value it can hold. *)
Class Real (R : Type) := {
  real_zero : R;
  real_sum : list R -> R;
  real_ge : R -> R -> bool;
  real_ge_total : forall x y, real_ge x y = true \/ real_ge y x = true;
  real_ge_trans : forall x y z,
      real_ge x y = true -> real_ge y z = true -> real_ge x z = true
}.

(** Amounts in whole units, summed exactly: the instance the concrete
    runs below are evaluated at. *)
#[export] Instance Real_Z : Real Z.
Proof.
  refine {| real_zero := 0;
            real_sum := fold_right Z.add 0;
            real_ge := fun x y => Z.leb y x |}.
  - intros x y. rewrite !Z.leb_le. lia.
  - intros x y z. rewrite !Z.leb_le. lia.
Defined.

(** Exceptions: the class decides which [except] clause catches, the
    text is [str(e)]. *)
Inductive exn_class := BaseException | Exception | FileNotFoundError.

Record exn := mkExn { class_of : exn_class; text : string }.

Definition isinstance (e : exn) (c : exn_class) : bool :=
  match c, class_of e with
  | BaseException, _ => true
  | Exception, BaseException => false
  | Exception, _ => true
  | FileNotFoundError, FileNotFoundError => true
  | FileNotFoundError, _ => false
  end.

Inductive outcome (A : Type) :=
| Return (a : A)
| Raise (e : exn).
Arguments Return {A} a.
Arguments Raise {A} e.

(* ================================================================= *)
(** ** State and exceptions *)

Module Py.

Definition M (S A : Type) : Type := S -> S * outcome A.

Definition ret {S A} (a : A) : M S A := fun s => (s, Return a).

Definition raise {S A} (e : exn) : M S A := fun s => (s, Raise e).

Definition bind {S A B} (m : M S A) (k : A -> M S B) : M S B :=
  fun s => match m s with
           | (s', Return a) => k a s'
           | (s', Raise e) => (s', Raise e)
           end.

(** [try: body except cls as e: handler e]. *)
Definition try_except {S A} (body : M S A) (cls : exn_class)
           (handler : exn -> M S A) : M S A :=
  fun s => match body s with
           | (s', Raise e) =>
               if isinstance e cls then handler e s' else (s', Raise e)
           | done => done
           end.

End Py.

Declare Scope py_scope.
Delimit Scope py_scope with py.
Notation "x <- m ;; k" := (Py.bind m (fun x => k))
  (at level 61, m at next level, right associativity) : py_scope.
Notation "m ;;; k" := (Py.bind m (fun _ => k))
  (at level 61, right associativity) : py_scope.

(** [str(datetime.date)]: [YYYY-MM-DD]. *)
Record pydate := mkDate { year : nat; month : nat; day : nat }.

Definition str_date (d : pydate) : string :=
  (Text.pad 4 (year d) ++ "-" ++ Text.pad 2 (month d) ++ "-"
     ++ Text.pad 2 (day d))%string.

(** A date of the calendar, as [datetime.date] holds it. *)
Definition calendar (d : pydate) : Prop :=
  (1 <= year d < 100 * 100)%nat /\ (1 <= month d <= 12)%nat /\
  (1 <= day d <= 31)%nat.

(** Earlier, same or later: by year, then month, then day. *)
Definition date_compare (d1 d2 : pydate) : comparison :=
  match Nat.compare (year d1) (year d2) with
  | Eq => match Nat.compare (month d1) (month d2) with
          | Eq => Nat.compare (day d1) (day d2)
          | o => o
          end
  | o => o
  end.

(** Reading a decimal numeral, digit by digit from the left; [None] on
    a character that is no digit. *)
Fixpoint decimal_from (acc : nat) (s : string) : option nat :=
  match s with
  | EmptyString => Some acc
  | String c t =>
      let k := nat_of_ascii c in
      if Nat.leb 48 k && Nat.leb k 57
      then decimal_from (10 * acc + (k - 48)) t
      else None
  end.

Definition decimal (s : string) : option nat := decimal_from 0 s.

(** [text] is the ISO form of a date: four digits of year, two of
    month and two of day, with hyphens between. *)
Definition iso_date (d : pydate) (text : string) : Prop :=
  exists y m dd : string,
    text = (y ++ "-" ++ m ++ "-" ++ dd)%string /\
    String.length y = 4%nat /\ String.length m = 2%nat /\
    String.length dd = 2%nat /\
    decimal y = Some (year d) /\ decimal m = Some (month d) /\
    decimal dd = Some (day d).

(** The numeral of [n] on [width] digits, most significant first. *)
Fixpoint numeral (width n : nat) : list ascii :=
  match width with
  | O => []
  | S w => (numeral w (Nat.div n 10) ++ [Text.digit n])%list
  end.

(* ================================================================= *)
(** ** The store *)

Section Tracker.

Context {R : Type} {real : Real R}.

Local Open Scope string_scope.

(** Python values the handlers return. *)
Inductive value :=
| VNone
| VInt (z : Z)
| VReal (x : R)
| VStr (s : string)
| VList (l : list value)
| VDict (d : list (string * value)).

(** One row of [expenses(id, date, amount, category, subcategory,
    note)].  The handlers bind text to the text columns and a number
    to [amount]; [date], [amount] and [category] are [NOT NULL]. *)
Record Row := mkRow {
  id : Z;
  date : string;
  amount : R;
  category : string;
  subcategory : string;
  note : string
}.

(** The database file: the table in rowid order and the counter that
    [AUTOINCREMENT] keeps in [sqlite_sequence].  [init_db] runs when
    the module is loaded and the module fails to load when it raises,
    so every handler finds the table. *)
Record Store := mkStore {
  expenses : list Row;
  sqlite_sequence : Z
}.

Definition MAX_ROWID : Z := 9223372036854775807.

(** The largest rowid in the table, 0 for the empty table.  The
    rowids the program stores are the positive ones the engine
    assigns; a table holding only rowids below 1 is outside what this
    floor describes. *)
Definition max_rowid (rows : list Row) : Z :=
  fold_right (fun r m => Z.max (id r) m) 0 rows.

(** The largest rowid the table has ever held. *)
Definition high_water (db : Store) : Z :=
  Z.max (sqlite_sequence db) (max_rowid (expenses db)).

(** Predicates of the [WHERE] clauses the handlers build. *)
Inductive cond :=
| DateBetween (lo hi : string)   (* date BETWEEN ? AND ? *)
| DateGe (lo : string)           (* date >= ? *)
| DateLe (hi : string)           (* date <= ? *)
| CategoryEq (c : string).       (* category = ? *)

Definition holds (c : cond) (r : Row) : bool :=
  match c with
  | DateBetween lo hi => Text.ge (date r) lo && Text.le (date r) hi
  | DateGe lo => Text.ge (date r) lo
  | DateLe hi => Text.le (date r) hi
  | CategoryEq c => String.eqb (category r) c
  end.

Definition where_ (cs : list cond) (r : Row) : bool :=
  forallb (fun c => holds c r) cs.

(** [ORDER BY date DESC, id DESC]: [a] is listed no later than [b]. *)
Definition date_id_desc (a b : Row) : bool :=
  if String.eqb (date a) (date b) then Z.leb (id b) (id a)
  else Text.lt (date b) (date a).

(** [GROUP BY category]: one group per distinct category. *)
Fixpoint distinct (l : list string) : list string :=
  match l with
  | [] => []
  | c :: t => c :: filter (fun d => negb (String.eqb d c)) (distinct t)
  end.

Record Summary := mkSummary {
  s_category : string;
  total_amount : R;
  count : Z
}.

Definition group (rows : list Row) (c : string) : list Row :=
  filter (fun r => String.eqb (category r) c) rows.

Definition aggregate (rows : list Row) (c : string) : Summary :=
  {| s_category := c;
     total_amount := real_sum (map amount (group rows c));
     count := Z.of_nat (List.length (group rows c)) |}.

Definition group_by_category (rows : list Row) : list Summary :=
  map (aggregate rows) (distinct (map category rows)).

(** [ORDER BY total_amount DESC]. *)
Definition total_desc (a b : Summary) : bool :=
  real_ge (total_amount a) (total_amount b).

Definition row_tuple (r : Row) : list value :=
  [VInt (id r); VStr (date r); VReal (amount r); VStr (category r);
   VStr (subcategory r); VStr (note r)].

Definition summary_tuple (s : Summary) : list value :=
  [VStr (s_category s); VReal (total_amount s); VInt (count s)].

(** The statements the program sends. *)
Inductive stmt :=
| PragmaJournalModeWal
| CreateTableIfNotExists
| Insert (date : string) (amount : R) (category subcategory note : string)
| DeleteWhereCategory (c : string)
| SelectExpenses (w : list cond)
| SelectSummary (w : list cond).

Record Cursor := mkCursor {
  lastrowid : value;
  description : list string;
  fetched : list (list value)
}.

Definition no_rows : Cursor := mkCursor VNone [] [].

Definition expenses_columns : list string :=
  ["id"; "date"; "amount"; "category"; "subcategory"; "note"].

Definition summary_columns : list string :=
  ["category"; "total_amount"; "count"].

Definition select_expenses (w : list cond) (db : Store) : list Row :=
  Sorting.sort date_id_desc (filter (where_ w) (expenses db)).

Definition select_summary (w : list cond) (db : Store) : list Summary :=
  Sorting.sort total_desc (group_by_category (filter (where_ w) (expenses db))).

(** What the engine does with one statement.  An [AUTOINCREMENT] key
    is one more than the largest rowid the table has ever held, and
    the insert is refused with [SQLITE_FULL] once that is the largest
    possible rowid.  [OR IGNORE] skips rows that violate a constraint;
    the probe row of [init_db] violates none. *)
Definition run_stmt (s : stmt) (db : Store) : outcome (Store * Cursor) :=
  match s with
  | PragmaJournalModeWal => Return (db, no_rows)
  | CreateTableIfNotExists => Return (db, no_rows)
  | Insert d a c sc n =>
      let top := high_water db in
      if Z.leb MAX_ROWID top
      then Raise (mkExn Exception "database or disk is full")
      else
        let rowid := top + 1 in
        Return ({| expenses := expenses db ++ [mkRow rowid d a c sc n];
                   sqlite_sequence := rowid |},
                mkCursor (VInt rowid) [] [])
  | DeleteWhereCategory c =>
      Return ({| expenses :=
                   filter (fun r => negb (String.eqb (category r) c))
                          (expenses db);
                 sqlite_sequence := sqlite_sequence db |},
              no_rows)
  | SelectExpenses w =>
      Return (db, mkCursor VNone expenses_columns
                           (map row_tuple (select_expenses w db)))
  | SelectSummary w =>
      Return (db, mkCursor VNone summary_columns
                           (map summary_tuple (select_summary w db)))
  end.

(** What the world outside the process contributes to one call: the
    clock, the faults of the database layer, what the operating system
    gives for [categories.json] (the bytes of the file, or the error of
    opening or reading it), and the text of the [UnicodeDecodeError]
    the codec reports when those bytes are not UTF-8 (it names a
    position in the block the reader was decoding). *)
Record Env := mkEnv {
  today : pydate;
  connect_fault : option exn;
  execute_fault : option exn;
  fetch_fault : option exn;
  commit_fault : option exn;
  categories_file : outcome string;
  decode_error : string
}.

(** An open connection: the file as committed and the connection's
    view of it, which holds its uncommitted writes. *)
Record Conn := mkConn {
  disk : Store;
  txn : Store
}.

Definition execute (env : Env) (s : stmt) : Py.M Conn Cursor :=
  fun c =>
    match execute_fault env with
    | Some e => (c, Raise e)
    | None =>
        match run_stmt s (txn c) with
        | Return (db, cur) => ({| disk := disk c; txn := db |}, Return cur)
        | Raise e => (c, Raise e)
        end
    end.

Definition fetchall (env : Env) (cur : Cursor) : Py.M Conn (list (list value)) :=
  fun c =>
    match fetch_fault env with
    | Some e => (c, Raise e)
    | None => (c, Return (fetched cur))
    end.

(** [await c.commit()].  A fault here is an error the engine reports
    for the commit, which then has not taken effect. *)
Definition commit (env : Env) : Py.M Conn unit :=
  fun c =>
    match commit_fault env with
    | Some e => (c, Raise e)
    | None => ({| disk := txn c; txn := txn c |}, Return tt)
    end.

(** [async with aiosqlite.connect(DB_PATH) as c: body]: leaving the
    block closes the connection, which drops what was not committed.
    The close itself is taken to succeed. *)
Definition aiosqlite_connect {A} (env : Env) (body : Py.M Conn A)
  : Py.M Store A :=
  fun db =>
    match connect_fault env with
    | Some e => (db, Raise e)
    | None =>
        let (c, r) := body {| disk := db; txn := db |} in (disk c, r)
    end.

(** [with sqlite3.connect(DB_PATH) as c: body]: commits when the body
    ends normally and rolls back when it raises. *)
Definition sqlite3_connect {A} (env : Env) (body : Py.M Conn A)
  : Py.M Store A :=
  fun db =>
    match connect_fault env with
    | Some e => (db, Raise e)
    | None =>
        match body {| disk := db; txn := db |} with
        | (c, Return a) =>
            match commit_fault env with
            | Some e => (disk c, Raise e)
            | None => (txn c, Return a)
            end
        | (c, Raise e) => (disk c, Raise e)
        end
    end.

(** Python's truth test on an optional text argument, and the value
    bound to the [?] of the statement. *)
Definition truthy (o : option string) : bool :=
  match o with
  | None => false
  | Some s => Text.nonempty s
  end.

Definition param (o : option string) : string :=
  match o with
  | None => ""
  | Some s => s
  end.

(** [dict(zip(cols, r))]. *)
Definition dict_zip (cols : list string) (r : list value) : value :=
  VDict (combine cols r).

(* --------------------------------------------------------------- *)
(** *** [json.dumps] on the documents [categories] builds *)

Inductive json :=
| JStr (s : string)
| JList (l : list json)
| JDict (d : list (string * json)).

Definition quote : string := String "034"%char "".
Definition newline : string := String "010"%char "".

(** The escapes of [json.dumps] for printable ASCII text and the
    common control characters; the labels need none of them. *)
Fixpoint json_escape (s : string) : string :=
  match s with
  | "" => ""
  | String c t =>
      (if Ascii.eqb c "034"%char then "\" ++ quote
       else if Ascii.eqb c "\"%char then "\\"
       else if Ascii.eqb c "010"%char then "\n"
       else if Ascii.eqb c "013"%char then "\r"
       else if Ascii.eqb c "009"%char then "\t"
       else String c "") ++ json_escape t
  end.

Definition json_str (s : string) : string := quote ++ json_escape s ++ quote.

Fixpoint spaces (n : nat) : string :=
  match n with
  | O => ""
  | S k => String " "%char (spaces k)
  end.

Definition newline_indent (indent level : nat) : string :=
  newline ++ spaces (indent * level).

Fixpoint json_dumps_at (indent level : nat) (j : json) : string :=
  match j with
  | JStr s => json_str s
  | JList [] => "[]"
  | JList l =>
      "[" ++ newline_indent indent (S level)
          ++ String.concat ("," ++ newline_indent indent (S level))
                           (map (json_dumps_at indent (S level)) l)
          ++ newline_indent indent level ++ "]"
  | JDict [] => "{}"
  | JDict d =>
      "{" ++ newline_indent indent (S level)
          ++ String.concat ("," ++ newline_indent indent (S level))
               (map (fun kv => let (k, v) := kv : string * json in
                               json_str k ++ ": "
                                 ++ json_dumps_at indent (S level) v) d)
          ++ newline_indent indent level ++ "}"
  end.

(** [json.dumps(obj, indent=n)]. *)
Definition json_dumps (obj : json) (indent : nat) : string :=
  json_dumps_at indent 0 obj.

(* --------------------------------------------------------------- *)
(** *** The handlers *)

Local Open Scope py_scope.

Definition init_db (env : Env) : Py.M Store unit :=
  Py.try_except
    (sqlite3_connect env
       (execute env PragmaJournalModeWal ;;;
        execute env CreateTableIfNotExists ;;;
        (* Test write access *)
        execute env (Insert "2000-01-01" real_zero "test" "" "") ;;;
        execute env (DeleteWhereCategory "test") ;;;
        Py.ret tt))
    Exception
    (fun e => Py.raise e).

Definition add_expense_try (env : Env) (date : string) (amount : R)
           (category subcategory note : string) : Py.M Store value :=
  aiosqlite_connect env
    (cur <- execute env (Insert date amount category subcategory note) ;;
     let expense_id := lastrowid cur in
     commit env ;;;
     Py.ret (VDict [("status", VStr "success"); ("id", expense_id);
                    ("message", VStr "Expense added successfully")])).

Definition add_expense_except (e : exn) : Py.M Store value :=
  if Text.contains "readonly" (Text.lower (text e))
  then Py.ret (VDict [("status", VStr "error");
                      ("message", VStr "Database is in read-only mode. Check file permissions.")])
  else Py.ret (VDict [("status", VStr "error");
                      ("message", VStr ("Database error: " ++ text e))]).

Definition add_expense (env : Env) (amount : R) (category : string)
           (subcategory note : string) (date : option string)
  : Py.M Store value :=
  let date := match date with
              | None => str_date (today env)
              | Some d => d
              end in
  Py.try_except
    (add_expense_try env date amount category subcategory note)
    Exception
    add_expense_except.

Definition list_expenses_try (env : Env) (start_date end_date : option string)
  : Py.M Store value :=
  aiosqlite_connect env
    (let query :=
       if truthy start_date && truthy end_date
       then SelectExpenses [DateBetween (param start_date) (param end_date)]
       else if truthy start_date
       then SelectExpenses [DateGe (param start_date)]
       else if truthy end_date
       then SelectExpenses [DateLe (param end_date)]
       else SelectExpenses [] in
     cur <- execute env query ;;
     let cols := description cur in
     expenses <- fetchall env cur ;;
     Py.ret (VList (map (dict_zip cols) expenses))).

Definition error_dict (message : string) : value :=
  VDict [("status", VStr "error"); ("message", VStr message)].

Definition list_expenses (env : Env) (start_date end_date : option string)
  : Py.M Store value :=
  Py.try_except
    (list_expenses_try env start_date end_date)
    Exception
    (fun e => Py.ret (error_dict ("Error listing expenses: " ++ text e))).

Definition summarize_try (env : Env)
           (start_date end_date category : option string)
  : Py.M Store value :=
  aiosqlite_connect env
    (let params : list cond := [] in
     let params :=
       if truthy start_date && truthy end_date
       then (params ++ [DateBetween (param start_date) (param end_date)])%list
       else if truthy start_date
       then (params ++ [DateGe (param start_date)])%list
       else if truthy end_date
       then (params ++ [DateLe (param end_date)])%list
       else params in
     let params :=
       if truthy category
       then (params ++ [CategoryEq (param category)])%list
       else params in
     cur <- execute env (SelectSummary params) ;;
     let cols := description cur in
     rows <- fetchall env cur ;;
     Py.ret (VList (map (dict_zip cols) rows))).

Definition summarize (env : Env) (start_date end_date category : option string)
  : Py.M Store value :=
  Py.try_except
    (summarize_try env start_date end_date category)
    Exception
    (fun e => Py.ret (error_dict ("Error summarizing expenses: " ++ text e))).

Definition default_labels : list string :=
  ["Food & Dining"; "Transportation"; "Shopping"; "Entertainment";
   "Bills & Utilities"; "Healthcare"; "Travel"; "Education"; "Business";
   "Other"].

(** A continuation byte of UTF-8: [10xxxxxx]. *)
Definition continuation (c : ascii) : bool :=
  let n := nat_of_ascii c in Nat.leb 128 n && Nat.ltb n 192.

(** The byte strings the strict [utf-8] codec decodes: shortest forms
    only, no surrogates, nothing above [U+10FFFF]. *)
Fixpoint utf8_valid (s : string) : bool :=
  match s with
  | "" => true
  | String b0 t =>
      let n0 := nat_of_ascii b0 in
      if Nat.ltb n0 128 then utf8_valid t
      else if Nat.ltb n0 194 then false
      else if Nat.ltb n0 224 then
        match t with
        | String b1 t1 => continuation b1 && utf8_valid t1
        | _ => false
        end
      else if Nat.ltb n0 240 then
        match t with
        | String b1 (String b2 t2) =>
            continuation b1 && continuation b2
            && (if Nat.eqb n0 224 then Nat.leb 160 (nat_of_ascii b1) else true)
            && (if Nat.eqb n0 237 then Nat.ltb (nat_of_ascii b1) 160 else true)
            && utf8_valid t2
        | _ => false
        end
      else if Nat.ltb n0 245 then
        match t with
        | String b1 (String b2 (String b3 t3)) =>
            continuation b1 && continuation b2 && continuation b3
            && (if Nat.eqb n0 240 then Nat.leb 144 (nat_of_ascii b1) else true)
            && (if Nat.eqb n0 244 then Nat.ltb (nat_of_ascii b1) 144 else true)
            && utf8_valid t3
        | _ => false
        end
      else false
  end.

(** Universal newlines, the default of a file opened in text mode:
    [CR LF] and a lone [CR] are read as [LF]. *)
Fixpoint universal_newlines (s : string) : string :=
  match s with
  | "" => ""
  | String c t =>
      if Ascii.eqb c "013"%char
      then String "010"%char
                  match t with
                  | String d t' =>
                      if Ascii.eqb d "010"%char then universal_newlines t'
                      else universal_newlines t
                  | "" => ""
                  end
      else String c (universal_newlines t)
  end.

(** What [open(CATEGORIES_PATH, "r", encoding="utf-8")] and [f.read()]
    give: the error of the operating system, the error of the codec,
    or the text of the file, held as its UTF-8 bytes. *)
Definition read_text (env : Env) : outcome string :=
  match categories_file env with
  | Return bytes =>
      if utf8_valid bytes then Return (universal_newlines bytes)
      else Raise (mkExn Exception (decode_error env))
  | Raise e => Raise e
  end.

Definition read_categories_file (env : Env) : Py.M Store string :=
  fun s => (s, read_text env).

Definition categories_error (e : exn) : string :=
  "{" ++ quote ++ "error" ++ quote ++ ": " ++ quote
      ++ "Could not load categories: " ++ text e ++ quote ++ "}".

Definition categories_try (env : Env) : Py.M Store value :=
  (* Provide default categories if file doesn't exist *)
  let default_categories :=
    JDict [("categories", JList (map JStr default_labels))] in
  Py.try_except
    (content <- read_categories_file env ;; Py.ret (VStr content))
    FileNotFoundError
    (fun _ => Py.ret (VStr (json_dumps default_categories 2))).

Definition categories (env : Env) : Py.M Store value :=
  Py.try_except
    (categories_try env)
    Exception
    (fun e => Py.ret (VStr (categories_error e))).

(* --------------------------------------------------------------- *)
(** *** The operation surface *)

Inductive call :=
| Add (amount : R) (category subcategory note : string) (date : option string)
| ListExpenses (start_date end_date : option string)
| Summarize (start_date end_date category : option string)
| Categories.

Definition invoke (env : Env) (c : call) : Py.M Store value :=
  match c with
  | Add a c sc n d => add_expense env a c sc n d
  | ListExpenses s e => list_expenses env s e
  | Summarize s e c => summarize env s e c
  | Categories => categories env
  end.

(** What a call attempts inside its [try]. *)
Definition attempt (env : Env) (c : call) : Py.M Store value :=
  match c with
  | Add a c sc n d =>
      add_expense_try env match d with
                          | None => str_date (today env)
                          | Some d => d
                          end a c sc n
  | ListExpenses s e => list_expenses_try env s e
  | Summarize s e c => summarize_try env s e c
  | Categories => categories_try env
  end.

(** The life of the store file: the module is loaded, which runs
    [init_db()], and requests are served, one after the other and
    each in its own environment.  A load that raises ends the
    process; the file stays and a later load reopens it. *)
Inductive event :=
| Startup (env : Env)
| Request (env : Env) (c : call).

Definition serve (ev : event) : Py.M Store value :=
  match ev with
  | Startup env => init_db env ;;; Py.ret VNone
  | Request env c => invoke env c
  end.

Fixpoint run (events : list event) (db : Store)
  : Store * list (outcome value) :=
  match events with
  | [] => (db, [])
  | ev :: rest =>
      let (db1, out) := serve ev db in
      let (db2, outs) := run rest db1 in
      (db2, out :: outs)
  end.

End Tracker.

(* ================================================================= *)
(** ** Vocabulary of the statements *)

Section Statements.

Context {R : Type} {real : Real R}.

Local Open Scope string_scope.

(** No fault of the database layer during the call. *)
Definition quiet (env : Env) : Prop :=
  connect_fault env = None /\ execute_fault env = None /\
  fetch_fault env = None /\ commit_fault env = None.

(** Every fault the environment injects is an [Exception]: the
    database and file errors of the documented conditions, as against
    interpreter-level [BaseException]s such as a cancellation. *)
Definition ordinary_fault (f : option exn) : Prop :=
  match f with
  | Some e => isinstance e Exception = true
  | None => True
  end.

Definition ordinary (env : Env) : Prop :=
  ordinary_fault (connect_fault env) /\ ordinary_fault (execute_fault env) /\
  ordinary_fault (fetch_fault env) /\ ordinary_fault (commit_fault env) /\
  match categories_file env with
  | Raise e => isinstance e Exception = true
  | Return _ => True
  end.

(** A bound as the specification reads it: given or not. *)
Definition in_range (start_date end_date : option string) (r : Row (R:=R))
  : bool :=
  match start_date with
  | Some lo => Text.ge (date r) lo
  | None => true
  end &&
  match end_date with
  | Some hi => Text.le (date r) hi
  | None => true
  end.

(** An argument as the handlers read it: an empty string counts as
    not given. *)
Definition given (o : option string) : option string :=
  if truthy o then o else None.

(** A bound in the words of the listing's description: it counts when
    it is a non-empty string. *)
Definition nonempty_bound (o : option string) : option string :=
  match o with
  | Some (String c s) => Some (String c s)
  | _ => None
  end.

(** [a] comes no later than [b] in a listing: the later date first,
    and on one date the larger id first. *)
Definition newest_first (a b : Row (R:=R)) : Prop :=
  String.compare (date b) (date a) = Lt \/
  (date a = date b /\ id b <= id a).

(** The mapping a listed row is returned as. *)
Definition row_mapping (r : Row (R:=R)) : value :=
  VDict [("id", VInt (id r)); ("date", VStr (date r));
         ("amount", VReal (amount r)); ("category", VStr (category r));
         ("subcategory", VStr (subcategory r)); ("note", VStr (note r))].

(** The mapping a summary line is returned as. *)
Definition summary_mapping (s : Summary (R:=R)) : value :=
  VDict [("category", VStr (s_category s));
         ("total_amount", VReal (total_amount s));
         ("count", VInt (count s))].

(** The result of a successful [add_expense]. *)
Definition success (i : Z) : value (R:=R) :=
  VDict [("status", VStr "success"); ("id", VInt i);
         ("message", VStr "Expense added successfully")].

Definition readonly_message : string :=
  "Database is in read-only mode. Check file permissions.".

(** [out] lists exactly the rows of [db] within the bounds, latest
    date first and, within a date, latest id first. *)
Definition lists_exactly (start_date end_date : option string)
           (db : Store) (out : outcome value) : Prop :=
  exists rs : list Row,
    out = Return (VList (map row_mapping rs)) /\
    Permutation rs (filter (in_range start_date end_date) (expenses db)) /\
    Sorting.ordered date_id_desc rs.

(** [ss] has one line per category of [rows], with that category's
    sum and number of rows, largest total first. *)
Definition summarizes (rows : list Row) (ss : list Summary) : Prop :=
  NoDup (map s_category ss) /\
  (forall c, In c (map s_category ss) <-> In c (map category rows)) /\
  (forall s, In s ss ->
     total_amount s = real_sum (map amount (group rows (s_category s))) /\
     count s = Z.of_nat (List.length (group rows (s_category s)))) /\
  Sorting.ordered total_desc ss.

(** [out] has at most one line, for category [c], over the rows of
    that category within the bounds. *)
Definition summary_of_category (c : string)
           (start_date end_date : option string)
           (db : Store) (out : outcome value) : Prop :=
  exists ss : list Summary,
    out = Return (VList (map summary_mapping ss)) /\
    (List.length ss <= 1)%nat /\
    forall s, In s ss ->
      let rows := filter (fun r => in_range start_date end_date r
                                   && String.eqb (category r) c)
                         (expenses db) in
      s_category s = c /\
      total_amount s = real_sum (map amount rows) /\
      count s = Z.of_nat (List.length rows).

(** The id a call's outcome reports as added, if any. *)
Definition added_id (out : outcome (value (R:=R))) : option Z :=
  match out with
  | Return (VDict ((k1, VStr status) :: (k2, VInt i) :: _)) =>
      if String.eqb k1 "status" && String.eqb status "success"
         && String.eqb k2 "id"
      then Some i else None
  | _ => None
  end.

Fixpoint added_ids (outs : list (outcome (value (R:=R)))) : list Z :=
  match outs with
  | [] => []
  | out :: rest =>
      match added_id out with
      | Some i => i :: added_ids rest
      | None => added_ids rest
      end
  end.

(** The [WHERE] clause [list_expenses] and [summarize] pick for the
    dates is the range of the arguments as the handlers read them. *)
Definition date_conds (start_date end_date : option string) : list cond :=
  if truthy start_date && truthy end_date
  then [DateBetween (param start_date) (param end_date)]
  else if truthy start_date then [DateGe (param start_date)]
  else if truthy end_date then [DateLe (param end_date)]
  else [].

Definition disk_full : exn := mkExn Exception "database or disk is full".

(** The store after one more row. *)
Definition appended (db : Store (R:=R)) (r : Row) : Store :=
  {| expenses := expenses db ++ [r]; sqlite_sequence := id r |}.

Definition not_test (r : Row (R:=R)) : bool :=
  negb (String.eqb (category r) "test").

Definition stored_date (env : Env) (date : option string) : string :=
  match date with
  | None => str_date (today env)
  | Some d => d
  end.

(** [e] is one of the faults of [env], or the engine's own refusal. *)
Definition fault_of (env : Env) (e : exn) : Prop :=
  connect_fault env = Some e \/ execute_fault env = Some e \/
  fetch_fault env = Some e \/ commit_fault env = Some e \/
  categories_file env = Raise e \/ e = disk_full.

(** A reader leaves the store alone and ends with a list or with a
    fault. *)
Definition reads (env : Env) (m : Py.M (Store (R:=R)) (value (R:=R)))
           (db : Store)
  : Prop :=
  (exists l, m db = (db, Return (VList l))) \/
  (exists e, m db = (db, Raise e) /\ fault_of env e).

(** The largest rowid ever held never goes down, and an id reported as
    added lies above the old mark and at or below the new one. *)
Definition climbs (db db' : Store (R:=R)) (out : outcome (value (R:=R)))
  : Prop :=
  high_water db <= high_water db' /\
  forall i, added_id out = Some i -> high_water db < i <= high_water db'.

(** The counts of a summary, added up. *)
Definition total_count (ss : list (Summary (R:=R))) : Z :=
  fold_right Z.add 0 (map count ss).

End Statements.

(* ================================================================= *)
(** ** Concrete data *)

(** The runs at the end take amounts in cents ([Real_Z]). *)

Section Data.

Local Open Scope string_scope.

(** No fault, and no category file. *)
Definition calm : Env :=
  mkEnv (mkDate 2026 11 4) None None None None
        (Raise (mkExn FileNotFoundError "No such file or directory")) "".

(** The store file cannot be written. *)
Definition locked : Env :=
  mkEnv (mkDate 2026 11 4) None
        (Some (mkExn Exception "attempt to write a READONLY database"))
        None None
        (Raise (mkExn Exception "Permission denied")) "".


Definition fresh : Store (R:=Z) := mkStore [] 0.

(** The scenario of the specification: three expenses. *)
Definition scenario : Store (R:=Z) :=
  mkStore [mkRow 1 "2024-01-01" 1050 "Food & Dining" "" "";
           mkRow 2 "2024-01-02" 500 "Food & Dining" "" "";
           mkRow 3 "2024-01-01" 2000 "Transportation" "" ""] 3.

(** A store whose last row was added by a user under category
    ['test']. *)
Definition with_test_row : Store (R:=Z) :=
  mkStore [mkRow 1 "2024-01-01" 1050 "Food & Dining" "" "";
           mkRow 2 "2024-03-05" 700 "test" "" "lab fee"] 2.

(** The scenario with its rows in another order in the table. *)
Definition shuffled : Store (R:=Z) :=
  mkStore [mkRow 3 "2024-01-01" 2000 "Transportation" "" "";
           mkRow 1 "2024-01-01" 1050 "Food & Dining" "" "";
           mkRow 2 "2024-01-02" 500 "Food & Dining" "" ""] 3.

(** A table that has held the largest rowid. *)
Definition exhausted : Store (R:=Z) := mkStore [] 9223372036854775807.

(** The process is cancelled while it waits for the database. *)
Definition cancelled : Env :=
  mkEnv (mkDate 2026 11 4) None
        (Some (mkExn BaseException "CancelledError")) None None
        (Return "{}") "".

(** A later day on the clock. *)
Definition later : Env :=
  mkEnv (mkDate 2031 5 17) None None None None (Return "{}") "".





End Data.

(* ================================================================= *)
(** ** Facts about text and sorting *)

(* ----------------------------------------------------------------- *)
(** *** Facts about the text order *)

Section TextOrder.

Lemma compare_as_OT (a b : string) :
  String.compare a b = String_as_OT.compare a b.
Proof.
  revert b; induction a as [|x a IH]; intros [|y b]; simpl; auto.
Qed.

Lemma compare_refl (a : string) : String.compare a a = Eq.
Proof.
  induction a as [|x a IH]; simpl; auto.
  unfold Ascii.compare. rewrite N.compare_refl. exact IH.
Qed.

Lemma compare_lt_trans (a b c : string) :
  String.compare a b = Lt -> String.compare b c = Lt ->
  String.compare a c = Lt.
Proof.
  rewrite !compare_as_OT.
  apply (@StrictOrder_Transitive _ _ String_as_OT.lt_strorder).
Qed.

Lemma compare_gt_lt (a b : string) :
  String.compare a b = Gt <-> String.compare b a = Lt.
Proof.
  rewrite (String.compare_antisym a b).
  destruct (String.compare b a); simpl; split; congruence.
Qed.

End TextOrder.

(* ----------------------------------------------------------------- *)
(** *** Facts about [lower] and [contains] *)

Section TextSearch.

Local Open Scope string_scope.

Lemma prefix_iff (p s : string) :
  String.prefix p s = true <-> exists b, s = p ++ b.
Proof.
  revert s; induction p as [|c p IH]; intros s.
  - destruct s; simpl; split; eauto.
  - destruct s as [|d s]; simpl.
    + split; [discriminate | intros [b Hb]; discriminate].
    + destruct (Ascii.ascii_dec c d) as [->|Hne].
      * rewrite IH. split; intros [b Hb]; exists b; congruence.
      * split; [discriminate | intros [b Hb]; congruence].
Qed.

Lemma contains_iff (needle hay : string) :
  Text.contains needle hay = true <->
  exists a b, hay = a ++ needle ++ b.
Proof.
  induction hay as [|c hay IH].
  - cbn [Text.contains]. destruct (String.prefix needle "") eqn:E.
    + split; [intros _ | reflexivity]. apply prefix_iff in E as [b Hb].
      exists "", b. exact Hb.
    + split; [discriminate|]. intros (a & b & H).
      destruct a; simpl in H; [|discriminate].
      assert (String.prefix needle "" = true) by (apply prefix_iff; eauto).
      congruence.
  - cbn [Text.contains]. destruct (String.prefix needle (String c hay)) eqn:E.
    + split; [intros _ | reflexivity]. apply prefix_iff in E as [b Hb].
      exists "", b. exact Hb.
    + rewrite IH. split.
      * intros (a & b & ->). exists (String c a), b. reflexivity.
      * intros (a & b & H). destruct a as [|d a]; simpl in H.
        -- assert (String.prefix needle (String c hay) = true)
             by (apply prefix_iff; eauto).
           congruence.
        -- injection H as _ ->. eauto.
Qed.

Lemma lower_app (a b : string) :
  Text.lower (a ++ b) = Text.lower a ++ Text.lower b.
Proof. induction a; simpl; congruence. Qed.

Lemma lower_split (s x y : string) :
  Text.lower s = x ++ y ->
  exists a b, s = a ++ b /\ Text.lower a = x /\ Text.lower b = y.
Proof.
  revert s; induction x as [|c x IH]; intros s H.
  - exists "", s. auto.
  - destruct s as [|d s]; simpl in H; [discriminate|].
    injection H as Hc Hs. destruct (IH _ Hs) as (a & b & -> & Ha & Hb).
    exists (String d a), b. simpl. repeat split; congruence.
Qed.

(** [needle in str(e).lower()] holds exactly when some substring of
    the text lowers to the needle. *)
Lemma contains_lower_iff (needle text : string) :
  Text.contains needle (Text.lower text) = true <->
  exists a w b, text = a ++ w ++ b /\ Text.lower w = needle.
Proof.
  rewrite contains_iff. split.
  - intros (x & y & H).
    apply lower_split in H as (a & r & -> & _ & Hr).
    apply lower_split in Hr as (w & b & -> & Hw & _). eauto.
  - intros (a & w & b & -> & <-).
    exists (Text.lower a), (Text.lower b). now rewrite !lower_app.
Qed.

End TextSearch.

Section SorterFacts.

Context {A : Type} (before : A -> A -> bool).

Lemma insert_perm x l : Permutation (x :: l) (Sorting.insert before x l).
Proof.
  induction l as [|y t IH]; simpl; auto.
  destruct (before x y); auto.
  eapply perm_trans; [apply perm_swap|]. now constructor.
Qed.

Lemma sort_perm l : Permutation l (Sorting.sort before l).
Proof.
  induction l as [|x t IH]; simpl; auto.
  eapply perm_trans; [|apply insert_perm]. now constructor.
Qed.

Hypothesis before_total : forall x y, before x y = true \/ before y x = true.
Hypothesis before_trans :
  forall x y z, before x y = true -> before y z = true -> before x z = true.

Lemma insert_ordered x l :
  Sorting.ordered before l -> Sorting.ordered before (Sorting.insert before x l).
Proof.
  unfold Sorting.ordered. induction 1 as [|y t Ht IH Hy]; simpl.
  - repeat constructor.
  - destruct (before x y) eqn:E.
    + constructor; [now constructor|].
      constructor; auto.
      eapply Forall_impl; [|exact Hy]. intros z Hz. eauto.
    + constructor; auto.
      eapply Permutation_Forall; [apply insert_perm|].
      constructor; auto.
      destruct (before_total x y); congruence.
Qed.

Lemma sort_ordered l : Sorting.ordered before (Sorting.sort before l).
Proof.
  induction l; simpl; [constructor | now apply insert_ordered].
Qed.

End SorterFacts.


(* ================================================================= *)
(** ** Facts about the engine *)

Section Engine.

Context {R : Type} {real : Real R}.

Local Open Scope string_scope.

Lemma date_id_desc_iff (a b : Row (R:=R)) :
  date_id_desc a b = true <->
  String.compare (date b) (date a) = Lt \/
  (date a = date b /\ id b <= id a).
Proof.
  unfold date_id_desc, Text.lt, String.ltb.
  destruct (String.eqb_spec (date a) (date b)) as [E|N].
  - rewrite E, compare_refl, Z.leb_le. intuition discriminate.
  - destruct (String.compare (date b) (date a)); intuition discriminate.
Qed.

Lemma date_id_desc_total (a b : Row (R:=R)) :
  date_id_desc a b = true \/ date_id_desc b a = true.
Proof.
  rewrite !date_id_desc_iff.
  destruct (String.compare (date a) (date b)) eqn:E.
  - apply String.compare_eq_iff in E.
    destruct (Z.le_ge_cases (id a) (id b)); [right|left]; right; split;
      auto; lia.
  - right. now left.
  - left. left. now apply compare_gt_lt.
Qed.

Lemma date_id_desc_trans (a b c : Row (R:=R)) :
  date_id_desc a b = true -> date_id_desc b c = true ->
  date_id_desc a c = true.
Proof.
  rewrite !date_id_desc_iff.
  intros [Hab|[Eab Iab]] [Hbc|[Ebc Ibc]].
  - left. eapply compare_lt_trans; eauto.
  - left. now rewrite <- Ebc.
  - left. now rewrite Eab.
  - right. split; [congruence | lia].
Qed.

Lemma select_expenses_perm (w : list cond) (db : Store (R:=R)) :
  Permutation (select_expenses w db) (filter (where_ w) (expenses db)).
Proof. symmetry. apply sort_perm. Qed.

Lemma select_expenses_ordered (w : list cond) (db : Store (R:=R)) :
  Sorting.ordered date_id_desc (select_expenses w db).
Proof.
  apply sort_ordered;
    [apply date_id_desc_total | apply date_id_desc_trans].
Qed.

Lemma date_conds_in_range (s e : option string) (r : Row (R:=R)) :
  where_ (date_conds s e) r = in_range (given s) (given e) r.
Proof.
  unfold date_conds, given, in_range, where_.
  destruct s as [s|], e as [e|]; simpl;
    try destruct (Text.nonempty s); try destruct (Text.nonempty e);
    simpl; rewrite ?andb_true_r; reflexivity.
Qed.

Lemma dict_zip_row (r : Row (R:=R)) :
  dict_zip expenses_columns (row_tuple r) = row_mapping r.
Proof. reflexivity. Qed.

Lemma dict_zip_summary (s : Summary (R:=R)) :
  dict_zip summary_columns (summary_tuple s) = summary_mapping s.
Proof. reflexivity. Qed.

Lemma list_expenses_try_quiet (env : Env) (s e : option string)
      (db : Store (R:=R)) :
  quiet env ->
  list_expenses_try env s e db =
  (db, Return (VList (map row_mapping (select_expenses (date_conds s e) db)))).
Proof.
  intros (Hc & He & Hf & _).
  unfold list_expenses_try, aiosqlite_connect, date_conds. rewrite Hc.
  unfold Py.bind, execute, fetchall, Py.ret. rewrite He, Hf.
  destruct (truthy s), (truthy e); cbn [andb run_stmt txn disk fetched description];
    rewrite map_map; reflexivity.
Qed.

Lemma summarize_try_quiet (env : Env) (s e c : option string)
      (db : Store (R:=R)) :
  quiet env ->
  summarize_try env s e c db =
  (db, Return (VList (map summary_mapping
                 (select_summary
                    (date_conds s e
                       ++ (if truthy c then [CategoryEq (param c)] else []))%list
                    db)))).
Proof.
  intros (Hc & He & Hf & _).
  unfold summarize_try, aiosqlite_connect, date_conds. rewrite Hc.
  unfold Py.bind, execute, fetchall, Py.ret. rewrite He, Hf.
  destruct (truthy s), (truthy e), (truthy c);
    cbn [andb app run_stmt txn disk fetched description];
    rewrite map_map; reflexivity.
Qed.

End Engine.

(* ================================================================= *)
(** ** Facts about [try]/[except] *)

Section TryExcept.

Context {S A : Type}.

Lemma try_except_return (body : Py.M S A) cls h s s' a :
  body s = (s', Return a) ->
  Py.try_except body cls h s = (s', Return a).
Proof. unfold Py.try_except. now intros ->. Qed.

Lemma try_except_caught (body : Py.M S A) cls h s s' e :
  body s = (s', Raise e) -> isinstance e cls = true ->
  Py.try_except body cls h s = h e s'.
Proof. unfold Py.try_except. now intros -> ->. Qed.

Lemma try_except_passed (body : Py.M S A) cls h s s' e :
  body s = (s', Raise e) -> isinstance e cls = false ->
  Py.try_except body cls h s = (s', Raise e).
Proof. unfold Py.try_except. now intros -> ->. Qed.

End TryExcept.

(* ================================================================= *)
(** ** [list_expenses] *)

Section ListExpenses.

Context {R : Type} {real : Real R}.

Local Open Scope string_scope.

Lemma list_expenses_quiet (env : Env) (s e : option string)
      (db : Store (R:=R)) :
  quiet env ->
  list_expenses env s e db =
  (db, Return (VList (map row_mapping (select_expenses (date_conds s e) db)))).
Proof.
  intros Hq. unfold list_expenses.
  apply try_except_return. now apply list_expenses_try_quiet.
Qed.

Lemma truthy_given (o : option string) : truthy (given o) = truthy o.
Proof. unfold given. destruct (truthy o) eqn:E; auto. Qed.

Lemma param_given (o : option string) :
  truthy o = true -> param (given o) = param o.
Proof. unfold given. now intros ->. Qed.

Lemma date_conds_given (s e : option string) :
  date_conds (given s) (given e) = date_conds s e.
Proof.
  unfold date_conds. rewrite !truthy_given.
  destruct (truthy s) eqn:Es, (truthy e) eqn:Ee; simpl;
    rewrite ?param_given; auto.
Qed.

Lemma list_expenses_try_given (env : Env) (s e : option string)
      (db : Store (R:=R)) :
  list_expenses_try env s e db = list_expenses_try env (given s) (given e) db.
Proof.
  unfold list_expenses_try. rewrite !truthy_given.
  destruct (truthy s) eqn:Es, (truthy e) eqn:Ee; simpl;
    rewrite ?param_given; auto.
Qed.

Lemma summarize_try_given (env : Env) (s e c : option string)
      (db : Store (R:=R)) :
  summarize_try env s e c db =
  summarize_try env (given s) (given e) (given c) db.
Proof.
  unfold summarize_try. rewrite !truthy_given.
  destruct (truthy s) eqn:Es, (truthy e) eqn:Ee, (truthy c) eqn:Ec; simpl;
    rewrite ?param_given; auto.
Qed.

(** The listing in the handler's own reading of its arguments. *)
Lemma list_expenses_given_range
        (env : Env) (start_date end_date : option string)
        (db : Store (R:=R)) :
  quiet env ->
  fst (list_expenses env start_date end_date db) = db /\
  lists_exactly (given start_date) (given end_date) db
                (snd (list_expenses env start_date end_date db)).
Proof.
  intros Hq. rewrite (list_expenses_quiet env _ _ db Hq). split; auto.
  exists (select_expenses (date_conds start_date end_date) db).
  split; [reflexivity|]. split.
  - rewrite select_expenses_perm.
    erewrite filter_ext; [reflexivity|].
    intros r. apply date_conds_in_range.
  - apply select_expenses_ordered.
Qed.

Lemma given_nonempty_bound (o : option string) :
  given o = nonempty_bound o.
Proof. destruct o as [[|c s]|]; reflexivity. Qed.

Lemma strongly_sorted_impl {A} (P Q : A -> A -> Prop) (l : list A) :
  (forall a b, P a b -> Q a b) -> StronglySorted P l -> StronglySorted Q l.
Proof.
  intros H. induction 1 as [|x l Hl IH Hx]; constructor; auto.
  eapply Forall_impl; [|exact Hx]. intros b. apply H.
Qed.

(** C1, as amended.  With no fault of the database layer,
    [list_expenses] leaves the store as it is and returns exactly the
    rows whose date lies within the inclusive lexical bounds, ordered
    by date descending then id descending, where a bound counts when
    it is a non-empty string: [start_date <= date] for a start bound
    alone, [date <= end_date] for an end bound alone, both for both,
    every row for neither. *)
Theorem list_expenses_lists_nonempty_bounds
        (env : Env) (start_date end_date : option string)
        (db : Store (R:=R)) :
  quiet env ->
  fst (list_expenses env start_date end_date db) = db /\
  exists rs : list Row,
    snd (list_expenses env start_date end_date db)
      = Return (VList (map row_mapping rs)) /\
    Permutation rs
      (filter (fun r =>
                 match nonempty_bound start_date with
                 | Some lo => String.leb lo (date r)
                 | None => true
                 end
                 && match nonempty_bound end_date with
                    | Some hi => String.leb (date r) hi
                    | None => true
                    end)
              (expenses db)) /\
    StronglySorted newest_first rs.
Proof.
  intros Hq.
  destruct (list_expenses_given_range env start_date end_date db Hq)
    as (Hfst & rs & Hout & Hperm & Hord).
  split; [exact Hfst|]. exists rs. split; [exact Hout|]. split.
  - rewrite Hperm, !given_nonempty_bound. reflexivity.
  - eapply strongly_sorted_impl; [|exact Hord].
    intros a b Hab. apply date_id_desc_iff in Hab. exact Hab.
Qed.

(** C9.  A filter argument that is an empty string is read as
    absent, in [list_expenses] and in [summarize]: each call equals
    the call with the empty arguments left out, so an empty bound
    next to a non-empty one leaves a one-sided filter, an empty
    [category] leaves no category filter, and
    [list_expenses(end_date="")] returns every row. *)
Theorem empty_filter_is_absent
        (env : Env) (start_date end_date category : option string)
        (db : Store (R:=R)) :
  list_expenses env start_date (Some "") db
    = list_expenses env start_date None db /\
  list_expenses env (Some "") end_date db
    = list_expenses env None end_date db /\
  summarize env start_date end_date (Some "") db
    = summarize env start_date end_date None db /\
  summarize env start_date (Some "") category db
    = summarize env start_date None category db /\
  summarize env (Some "") end_date category db
    = summarize env None end_date category db /\
  list_expenses env start_date end_date db
    = list_expenses env (given start_date) (given end_date) db /\
  summarize env start_date end_date category db
    = summarize env (given start_date) (given end_date) (given category) db /\
  (quiet env ->
   exists rs, snd (list_expenses env None (Some "") db)
              = Return (VList (map row_mapping rs)) /\
              Permutation rs (expenses db) /\
              Sorting.ordered date_id_desc rs).
Proof.
  do 5 (split; [reflexivity|]).
  split; [|split].
  - unfold list_expenses, Py.try_except.
    now rewrite list_expenses_try_given.
  - unfold summarize, Py.try_except.
    now rewrite summarize_try_given.
  - intros Hq. rewrite (list_expenses_quiet env _ _ db Hq).
    exists (select_expenses [] db).
    split; [reflexivity|]. split.
    + rewrite select_expenses_perm. simpl.
      clear. induction (expenses db); simpl; auto.
    + apply select_expenses_ordered.
Qed.

End ListExpenses.

(* ================================================================= *)
(** ** [summarize] *)

Section Summarize.

Context {R : Type} {real : Real R}.

Local Open Scope string_scope.

Lemma distinct_in (l : list string) (c : string) :
  In c (distinct l) <-> In c l.
Proof.
  induction l as [|x l IH]; simpl; [tauto|].
  rewrite filter_In, IH.
  destruct (String.eqb_spec c x) as [->|N]; simpl.
  - intuition discriminate.
  - intuition congruence.
Qed.

Lemma distinct_nodup (l : list string) : NoDup (distinct l).
Proof.
  induction l as [|x l IH]; simpl; constructor.
  - rewrite filter_In, String.eqb_refl. simpl. intros [_ H]. discriminate.
  - now apply NoDup_filter.
Qed.

Lemma categories_of_groups (rows : list (Row (R:=R))) :
  map s_category (group_by_category rows) = distinct (map category rows).
Proof.
  unfold group_by_category. rewrite map_map. simpl. apply map_id.
Qed.

Lemma total_desc_total (a b : Summary (R:=R)) :
  total_desc a b = true \/ total_desc b a = true.
Proof. apply real_ge_total. Qed.

Lemma total_desc_trans (a b c : Summary (R:=R)) :
  total_desc a b = true -> total_desc b c = true -> total_desc a c = true.
Proof. apply real_ge_trans. Qed.

Lemma select_summary_summarizes (w : list cond) (db : Store (R:=R)) :
  summarizes (filter (where_ w) (expenses db)) (select_summary w db).
Proof.
  unfold select_summary. set (rows := filter (where_ w) (expenses db)).
  pose proof (sort_perm total_desc (group_by_category rows)) as P.
  repeat apply conj.
  - eapply Permutation_NoDup; [apply Permutation_map, P|].
    rewrite categories_of_groups. apply distinct_nodup.
  - intros c.
    rewrite <- (distinct_in (map category rows)), <- categories_of_groups.
    split.
    + apply Permutation_in. apply Permutation_map. now symmetry.
    + apply Permutation_in. now apply Permutation_map.
  - intros s Hs. eapply Permutation_in in Hs; [|symmetry; exact P].
    unfold group_by_category in Hs. apply in_map_iff in Hs as (c & <- & _).
    split; reflexivity.
  - apply sort_ordered;
      [apply total_desc_total | apply total_desc_trans].
Qed.

Lemma summarize_quiet (env : Env) (s e c : option string)
      (db : Store (R:=R)) :
  quiet env ->
  summarize env s e c db =
  (db, Return (VList (map summary_mapping
                 (select_summary
                    (date_conds s e
                       ++ (if truthy c then [CategoryEq (param c)] else []))%list
                    db)))).
Proof.
  intros Hq. unfold summarize.
  apply try_except_return. now apply summarize_try_quiet.
Qed.

Lemma filter_all {A} (l : list A) : filter (fun _ => true) l = l.
Proof. induction l; simpl; congruence. Qed.

(** C2.  With no fault of the database layer, [summarize] with no
    filters returns one mapping [{category, total_amount, count}] per
    distinct category among the rows of the store: no category twice,
    every category of a stored row and no other, each with the
    engine's sum over the amounts of the rows of that category and
    the number of those rows, the mappings ordered by [total_amount]
    descending. *)
Theorem summarize_all_categories (env : Env) (db : Store (R:=R)) :
  quiet env ->
  exists ss : list Summary,
    snd (summarize env None None None db)
      = Return (VList (map summary_mapping ss)) /\
    NoDup (map s_category ss) /\
    (forall c, In c (map s_category ss) <->
               exists r, In r (expenses db) /\ category r = c) /\
    (forall s, In s ss ->
       total_amount s
       = real_sum (map amount
                       (filter (fun r => String.eqb (category r) (s_category s))
                               (expenses db))) /\
       count s
       = Z.of_nat (List.length
                     (filter (fun r => String.eqb (category r) (s_category s))
                             (expenses db)))) /\
    StronglySorted
      (fun a b => real_ge (total_amount a) (total_amount b) = true) ss.
Proof.
  intros Hq. rewrite (summarize_quiet env _ _ _ db Hq).
  eexists. split; [reflexivity|].
  pose proof (select_summary_summarizes [] db) as H.
  simpl in H. rewrite filter_all in H.
  destruct H as (Hnd & Hcat & Hagg & Hord).
  split; [exact Hnd|]. split; [|split].
  - intros c. rewrite Hcat, in_map_iff. split.
    + intros (r & E & Hr). eauto.
    + intros (r & Hr & E). eauto.
  - intros s Hs. destruct (Hagg s Hs) as (Ht & Hn).
    unfold group in Ht, Hn. auto.
  - exact Hord.
Qed.

Lemma nodup_constant (l : list string) (c : string) :
  NoDup l -> (forall x, In x l -> x = c) -> (List.length l <= 1)%nat.
Proof.
  intros N H. destruct l as [|x [|y l]]; simpl; auto.
  exfalso. inversion N as [|? ? Hx _]; subst. apply Hx.
  rewrite (H x), (H y); simpl; auto.
Qed.

Lemma where_app (a b : list cond) (r : Row (R:=R)) :
  where_ (a ++ b) r = where_ a r && where_ b r.
Proof. apply forallb_app. Qed.

Lemma filter_idem {A} (f : A -> bool) (l : list A) :
  filter f (filter f l) = filter f l.
Proof.
  induction l as [|x l IH]; simpl; auto.
  destruct (f x) eqn:E; simpl; rewrite ?E, IH; auto.
Qed.

(** C7, as amended.  With no fault of the database layer and for
    every non-empty category string [C], [summarize(category=C)]
    returns at most one mapping; a returned mapping is for [C], and
    its [total_amount] and [count] aggregate exactly the rows whose
    category equals [C] and whose date lies within the bounds, a
    bound counting as given when it is a non-empty string. *)
Theorem summarize_one_category
        (env : Env) (start_date end_date : option string) (C : string)
        (db : Store (R:=R)) :
  quiet env ->
  C <> "" ->
  summary_of_category C (given start_date) (given end_date) db
    (snd (summarize env start_date end_date (Some C) db)).
Proof.
  intros Hq HC. rewrite (summarize_quiet env _ _ _ db Hq).
  assert (Ht : truthy (Some C) = true) by (destruct C; simpl; congruence).
  rewrite Ht. cbn [param snd].
  set (w := (date_conds start_date end_date ++ [CategoryEq C])%list).
  destruct (select_summary_summarizes w db) as (Hnd & Hcat & Hagg & _).
  set (keep := fun r : Row (R:=R) => in_range (given start_date) (given end_date) r
                              && String.eqb (category r) C).
  assert (Hw : filter (where_ w) (expenses db) = filter keep (expenses db)).
  { apply filter_ext. intros r. unfold w, keep.
    rewrite where_app, date_conds_in_range. simpl.
    now rewrite andb_true_r. }
  rewrite Hw in Hcat, Hagg.
  assert (HallC : forall c, In c (map s_category (select_summary w db)) -> c = C).
  { intros c Hc. apply Hcat in Hc. apply in_map_iff in Hc as (r & <- & Hr).
    apply filter_In in Hr as (_ & Hr). unfold keep in Hr.
    apply andb_true_iff in Hr as (_ & Hr). now apply String.eqb_eq. }
  exists (select_summary w db). split; [reflexivity|]. split.
  - rewrite <- (length_map s_category). now apply nodup_constant with C.
  - intros s Hs. cbv zeta. fold keep.
    assert (Es : s_category s = C) by (apply HallC; now apply in_map).
    destruct (Hagg s Hs) as (Ht' & Hn). rewrite Es in Ht', Hn.
    assert (Hg : group (filter keep (expenses db)) C = filter keep (expenses db)).
    { unfold group. rewrite <- (filter_idem keep) at 2.
      apply filter_ext_in. intros r Hr.
      apply filter_In in Hr as (_ & Hr). rewrite Hr. unfold keep in Hr.
      now apply andb_true_iff in Hr as (_ & Hr). }
    rewrite Hg in Ht', Hn. auto.
Qed.

End Summarize.

(* ================================================================= *)
(** ** Writes: [add_expense] and [init_db] *)

Section Writes.

Context {R : Type} {real : Real R}.

Local Open Scope string_scope.

(** The four ways the body of [add_expense] can end. *)
Lemma add_expense_try_cases (env : Env) (d : string) (a : R)
      (c sc n : string) (db : Store (R:=R)) :
  add_expense_try env d a c sc n db =
  match connect_fault env with
  | Some e => (db, Raise e)
  | None =>
      match execute_fault env with
      | Some e => (db, Raise e)
      | None =>
          if Z.leb MAX_ROWID (high_water db) then (db, Raise disk_full)
          else
            match commit_fault env with
            | Some e => (db, Raise e)
            | None =>
                (appended db (mkRow (high_water db + 1) d a c sc n),
                 Return (success (high_water db + 1)))
            end
      end
  end.
Proof.
  unfold add_expense_try, aiosqlite_connect, Py.bind, execute, commit, Py.ret.
  destruct (connect_fault env); auto.
  destruct (execute_fault env); auto.
  cbn [run_stmt txn disk].
  destruct (Z.leb MAX_ROWID (high_water db)); auto.
  cbn [txn disk lastrowid].
  destruct (commit_fault env); auto.
Qed.

(** The ways [init_db] can end. *)
Lemma init_db_cases (env : Env) (db : Store (R:=R)) :
  init_db env db =
  match connect_fault env with
  | Some e => (db, Raise e)
  | None =>
      match execute_fault env with
      | Some e => (db, Raise e)
      | None =>
          if Z.leb MAX_ROWID (high_water db) then (db, Raise disk_full)
          else
            match commit_fault env with
            | Some e => (db, Raise e)
            | None =>
                ({| expenses := filter not_test (expenses db);
                    sqlite_sequence := high_water db + 1 |},
                 Return tt)
            end
      end
  end.
Proof.
  unfold init_db, Py.try_except, sqlite3_connect, Py.bind, execute, Py.ret,
    Py.raise.
  destruct (connect_fault env) as [e|].
  { destruct (isinstance e Exception); auto. }
  destruct (execute_fault env) as [e|].
  { destruct (isinstance e Exception); auto. }
  cbn [run_stmt txn disk].
  destruct (Z.leb MAX_ROWID (high_water db)).
  { destruct (isinstance disk_full Exception); auto. }
  cbn [run_stmt txn disk expenses sqlite_sequence].
  destruct (commit_fault env) as [e|].
  { destruct (isinstance e Exception); auto. }
  rewrite filter_app. simpl. rewrite app_nil_r. reflexivity.
Qed.

Lemma add_expense_except_returns (e : exn) (db : Store (R:=R)) :
  exists m, add_expense_except e db = (db, Return (error_dict m)).
Proof.
  unfold add_expense_except.
  destruct (Text.contains "readonly" (Text.lower (text e)));
    eexists; reflexivity.
Qed.

(** How a call of [add_expense] ends: with the new row and its id, or
    with the store as it was and an error mapping or, for a fault that
    is no [Exception], the fault itself. *)
Lemma add_expense_cases (env : Env) (a : R) (c sc n : string)
      (d : option string) (db : Store (R:=R)) :
  add_expense env a c sc n d db =
    (appended db (mkRow (high_water db + 1) (stored_date env d) a c sc n),
     Return (success (high_water db + 1)))
  \/ (exists m, add_expense env a c sc n d db = (db, Return (error_dict m)))
  \/ (exists e, add_expense env a c sc n d db = (db, Raise e)).
Proof.
  unfold add_expense. fold (stored_date env d).
  unfold Py.try_except. rewrite add_expense_try_cases.
  assert (Hh : forall e,
    (exists m, (if isinstance e Exception then add_expense_except e db
                else (db, Raise e)) = (db, Return (error_dict m))) \/
    (exists e', (if isinstance e Exception then add_expense_except e db
                 else (db, Raise e)) = (db, Raise e'))).
  { intros e. destruct (isinstance e Exception); [left|right; eauto].
    apply add_expense_except_returns. }
  destruct (connect_fault env) as [e|]; [right; apply Hh|].
  destruct (execute_fault env) as [e|]; [right; apply Hh|].
  destruct (Z.leb MAX_ROWID (high_water db)); [right; apply Hh|].
  destruct (commit_fault env) as [e|]; [right; apply Hh|].
  now left.
Qed.

Lemma add_expense_succeeds (env : Env) (a : R) (c sc n : string)
      (d : option string) (db : Store (R:=R)) :
  quiet env -> high_water db < MAX_ROWID ->
  add_expense env a c sc n d db =
    (appended db (mkRow (high_water db + 1) (stored_date env d) a c sc n),
     Return (success (high_water db + 1))).
Proof.
  intros (Hc & He & _ & Hm) Hroom.
  unfold add_expense. fold (stored_date env d).
  apply try_except_return. rewrite add_expense_try_cases, Hc, He, Hm.
  destruct (Z.leb_spec MAX_ROWID (high_water db)); [lia | reflexivity].
Qed.

(** The row a successful [add_expense] has stored. *)
Lemma add_expense_stores_row
        (env : Env) (amount : R) (category subcategory note : string)
        (date : option string) (db : Store (R:=R)) :
  (forall i,
     snd (add_expense env amount category subcategory note date db)
       = Return (success i) ->
     expenses (fst (add_expense env amount category subcategory note date db))
       = (expenses db ++
           [mkRow i
                  match date with
                  | None => str_date (today env)
                  | Some d => d
                  end
                  amount category subcategory note])%list) /\
  (quiet env -> high_water db < MAX_ROWID ->
   snd (add_expense env amount category subcategory note date db)
     = Return (success (high_water db + 1))).
Proof.
  split.
  - intros i.
    destruct (add_expense_cases env amount category subcategory note date db)
      as [H|[(m & H)|(e & H)]]; rewrite H; simpl; intros Hi.
    + injection Hi as <-. reflexivity.
    + discriminate Hi.
    + discriminate Hi.
  - intros Hq Hroom. now rewrite add_expense_succeeds.
Qed.

End Writes.

(* ================================================================= *)
(** ** How calls end *)

Section Endings.

Context {R : Type} {real : Real R}.

Local Open Scope string_scope.

Lemma ordinary_fault_of (env : Env) (e : exn) :
  ordinary env -> fault_of env e -> isinstance e Exception = true.
Proof.
  intros (Hc & He & Hf & Hm & Hr) [H|[H|[H|[H|[H|H]]]]].
  - now rewrite H in Hc.
  - now rewrite H in He.
  - now rewrite H in Hf.
  - now rewrite H in Hm.
  - now rewrite H in Hr.
  - now subst.
Qed.

Lemma list_expenses_try_reads (env : Env) (s e : option string)
      (db : Store (R:=R)) :
  reads env (list_expenses_try env s e) db.
Proof.
  unfold reads, fault_of, list_expenses_try, aiosqlite_connect, Py.bind,
    execute, fetchall, Py.ret.
  destruct (connect_fault env) as [x|]; [right; eauto 8|].
  destruct (execute_fault env) as [x|] eqn:Ee.
  { right. exists x. destruct (truthy s), (truthy e); simpl; rewrite ?Ee; auto. }
  destruct (fetch_fault env) as [x|] eqn:Ef.
  { right. exists x. destruct (truthy s), (truthy e); simpl; auto 8. }
  left. destruct (truthy s), (truthy e); simpl; eauto.
Qed.

Lemma summarize_try_reads (env : Env) (s e c : option string)
      (db : Store (R:=R)) :
  reads env (summarize_try env s e c) db.
Proof.
  unfold reads, fault_of, summarize_try, aiosqlite_connect, Py.bind,
    execute, fetchall, Py.ret.
  destruct (connect_fault env) as [x|]; [right; eauto 8|].
  destruct (execute_fault env) as [x|] eqn:Ee.
  { right. exists x.
    destruct (truthy s), (truthy e), (truthy c); simpl; auto. }
  destruct (fetch_fault env) as [x|] eqn:Ef.
  { right. exists x.
    destruct (truthy s), (truthy e), (truthy c); simpl; auto 8. }
  left. destruct (truthy s), (truthy e), (truthy c); simpl; eauto.
Qed.

(** A handler built as [try: reader except Exception as e: return
    error] leaves the store alone and ends with a list, with the error
    mapping, or with a fault that is no [Exception]. *)
Lemma guarded_reader (env : Env) (body : Py.M (Store (R:=R)) (value (R:=R)))
      (prefix : string) (db : Store) :
  reads env body db ->
  let m := Py.try_except body Exception
             (fun e => Py.ret (error_dict (prefix ++ text e))) in
  (exists l, body db = (db, Return (VList l)) /\ m db = (db, Return (VList l)))
  \/ (exists e, body db = (db, Raise e) /\ fault_of env e /\
                isinstance e Exception = true /\
                m db = (db, Return (error_dict (prefix ++ text e))))
  \/ (exists e, body db = (db, Raise e) /\ fault_of env e /\
                isinstance e Exception = false /\ m db = (db, Raise e)).
Proof.
  intros [(l & H)|(e & H & Hf)]; cbv zeta; unfold Py.try_except; rewrite H.
  - left. eauto.
  - destruct (isinstance e Exception) eqn:E; [right; left|right; right];
      exists e; auto.
Qed.

Lemma list_expenses_ends (env : Env) (s e : option string) (db : Store (R:=R)) :
  (exists l, list_expenses_try env s e db = (db, Return (VList l)) /\
             list_expenses env s e db = (db, Return (VList l)))
  \/ (exists x, list_expenses_try env s e db = (db, Raise x) /\
                fault_of env x /\ isinstance x Exception = true /\
                list_expenses env s e db
                = (db, Return (error_dict ("Error listing expenses: " ++ text x))))
  \/ (exists x, list_expenses_try env s e db = (db, Raise x) /\
                fault_of env x /\ isinstance x Exception = false /\
                list_expenses env s e db = (db, Raise x)).
Proof.
  apply (guarded_reader env _ "Error listing expenses: " db).
  apply list_expenses_try_reads.
Qed.

Lemma summarize_ends (env : Env) (s e c : option string) (db : Store (R:=R)) :
  (exists l, summarize_try env s e c db = (db, Return (VList l)) /\
             summarize env s e c db = (db, Return (VList l)))
  \/ (exists x, summarize_try env s e c db = (db, Raise x) /\
                fault_of env x /\ isinstance x Exception = true /\
                summarize env s e c db
                = (db, Return (error_dict ("Error summarizing expenses: " ++ text x))))
  \/ (exists x, summarize_try env s e c db = (db, Raise x) /\
                fault_of env x /\ isinstance x Exception = false /\
                summarize env s e c db = (db, Raise x)).
Proof.
  apply (guarded_reader env _ "Error summarizing expenses: " db).
  apply summarize_try_reads.
Qed.

(** The resource: the file's text, the default document when the file
    is not there, the error document for another [Exception], and the
    fault itself otherwise. *)
Lemma categories_try_ends (env : Env) (db : Store (R:=R)) :
  categories_try env db =
  match read_text env with
  | Return content => (db, Return (VStr content))
  | Raise e =>
      if isinstance e FileNotFoundError
      then (db, Return (VStr (json_dumps
                  (JDict [("categories", JList (map JStr default_labels))]) 2)))
      else (db, Raise e)
  end.
Proof.
  unfold categories_try, Py.try_except, Py.bind, read_categories_file, Py.ret.
  destruct (read_text env) as [content|e]; auto.
Qed.

Lemma categories_ends (env : Env) (db : Store (R:=R)) :
  categories env db =
  match read_text env with
  | Return content => (db, Return (VStr content))
  | Raise e =>
      if isinstance e FileNotFoundError
      then (db, Return (VStr (json_dumps
                  (JDict [("categories", JList (map JStr default_labels))]) 2)))
      else if isinstance e Exception
           then (db, Return (VStr (categories_error e)))
           else (db, Raise e)
  end.
Proof.
  unfold categories, Py.try_except. rewrite categories_try_ends.
  destruct (read_text env) as [content|e]; auto.
  destruct (isinstance e FileNotFoundError); auto.
Qed.

(** The body of [add_expense]: the new row and its id, or the store as
    it was and a fault. *)
Lemma add_expense_try_ends (env : Env) (d : string) (a : R) (c sc n : string)
      (db : Store (R:=R)) :
  add_expense_try env d a c sc n db
    = (appended db (mkRow (high_water db + 1) d a c sc n),
       Return (success (high_water db + 1)))
  \/ (exists e, add_expense_try env d a c sc n db = (db, Raise e) /\
                fault_of env e).
Proof.
  rewrite add_expense_try_cases. unfold fault_of.
  destruct (connect_fault env) as [e|]; [right; eauto 8|].
  destruct (execute_fault env) as [e|]; [right; eauto 8|].
  destruct (Z.leb MAX_ROWID (high_water db)); [right; eauto 10|].
  destruct (commit_fault env) as [e|]; [right; eauto 10|].
  now left.
Qed.

Lemma add_expense_ends (env : Env) (a : R) (c sc n : string)
      (d : option string) (db : Store (R:=R)) :
  let body := add_expense_try env (stored_date env d) a c sc n in
  let row := mkRow (high_water db + 1) (stored_date env d) a c sc n in
  (body db = (appended db row, Return (success (id row))) /\
   add_expense env a c sc n d db = (appended db row, Return (success (id row))))
  \/ (exists e, body db = (db, Raise e) /\ fault_of env e /\
                isinstance e Exception = true /\
                add_expense env a c sc n d db = add_expense_except e db)
  \/ (exists e, body db = (db, Raise e) /\ fault_of env e /\
                isinstance e Exception = false /\
                add_expense env a c sc n d db = (db, Raise e)).
Proof.
  cbv zeta. unfold add_expense. fold (stored_date env d).
  unfold Py.try_except.
  destruct (add_expense_try_ends env (stored_date env d) a c sc n db)
    as [H|(e & H & Hf)]; rewrite H.
  - left. auto.
  - destruct (isinstance e Exception) eqn:E; [right; left|right; right];
      exists e; auto.
Qed.

End Endings.

(* ================================================================= *)
(** ** Failures, frame and identifiers *)

Section Surface.

Context {R : Type} {real : Real R}.

Local Open Scope string_scope.

Lemma ordinary_read_text (env : Env) :
  ordinary env ->
  forall x, read_text env = Raise x -> isinstance x Exception = true.
Proof.
  intros (_ & _ & _ & _ & Hr) x. unfold read_text.
  destruct (categories_file env) as [bytes|e].
  - destruct (utf8_valid bytes); [discriminate|].
    intros H. now injection H as <-.
  - intros H. now injection H as <-.
Qed.

Lemma readonly_message_not_generic (t : string) :
  "Database error: " ++ t <> readonly_message.
Proof. unfold readonly_message. simpl. discriminate. Qed.

Lemma add_expense_except_message (e : exn) (db : Store (R:=R)) :
  exists m,
    add_expense_except e db = (db, Return (error_dict m)) /\
    (m = readonly_message <->
     exists a w b, text e = a ++ w ++ b /\ Text.lower w = "readonly") /\
    (m <> readonly_message -> m = "Database error: " ++ text e).
Proof.
  unfold add_expense_except.
  destruct (Text.contains "readonly" (Text.lower (text e))) eqn:E.
  - exists readonly_message. split; [reflexivity|]. split.
    + split; auto. intros _. now apply contains_lower_iff.
    + congruence.
  - exists ("Database error: " ++ text e). split; [reflexivity|]. split; auto.
    split.
    + intros H. now apply readonly_message_not_generic in H.
    + intros H. apply contains_lower_iff in H. congruence.
Qed.

(** C3.  When every fault of the environment is an [Exception], no
    call of [add], [list], [summarize] or [categories] raises: what
    the call attempts either returns, and the call returns the same,
    or fails with some [e], and then [add], [list] and [summarize]
    return the mapping [{status: "error", message}] and [categories]
    the inline error document.  The message of [add] is the read-only
    one exactly when the text of [e] has a substring that lowers to
    ["readonly"], and the generic one carrying that text otherwise. *)
Theorem failures_are_returned_as_data (env : Env) (c : call) (db : Store (R:=R)) :
  ordinary env ->
  (exists v, snd (invoke env c db) = Return v) /\
  (forall v, snd (attempt env c db) = Return v ->
             snd (invoke env c db) = Return v) /\
  (forall e, snd (attempt env c db) = Raise e ->
     match c with
     | Add _ _ _ _ _ =>
         exists m,
           snd (invoke env c db) = Return (error_dict m) /\
           (m = readonly_message <->
            exists a w b, text e = a ++ w ++ b /\ Text.lower w = "readonly") /\
           (m <> readonly_message -> m = "Database error: " ++ text e)
     | ListExpenses _ _ =>
         snd (invoke env c db)
         = Return (error_dict ("Error listing expenses: " ++ text e))
     | Summarize _ _ _ =>
         snd (invoke env c db)
         = Return (error_dict ("Error summarizing expenses: " ++ text e))
     | Categories =>
         snd (invoke env c db) = Return (VStr (categories_error e))
     end).
Proof.
  intros Hord.
  destruct c as [a c sc n d|s e|s e c|]; cbn [invoke attempt].
  - fold (stored_date env d).
    destruct (add_expense_ends env a c sc n d db)
      as [(Hb & H)|[(x & Hb & Hf & Hi & H)|(x & Hb & Hf & Hi & H)]];
      cbv zeta in Hb; rewrite Hb.
    + rewrite H. cbn [snd]. split; [eauto|]. split; [auto|]. discriminate.
    + rewrite H.
      destruct (add_expense_except_message x db) as (m & Hm & Hiff & Hgen).
      rewrite Hm. cbn [snd]. split; [eauto|]. split; [discriminate|].
      intros e' He'. injection He' as <-. eauto.
    + rewrite (ordinary_fault_of env x Hord Hf) in Hi. discriminate.
  - destruct (list_expenses_ends env s e db)
      as [(l & Hb & H)|[(x & Hb & Hf & Hi & H)|(x & Hb & Hf & Hi & H)]];
      rewrite Hb, H; cbn [snd].
    + split; [eauto|]. split; [auto|]. discriminate.
    + split; [eauto|]. split; [discriminate|].
      intros e' He'. now injection He' as <-.
    + rewrite (ordinary_fault_of env x Hord Hf) in Hi. discriminate.
  - destruct (summarize_ends env s e c db)
      as [(l & Hb & H)|[(x & Hb & Hf & Hi & H)|(x & Hb & Hf & Hi & H)]];
      rewrite Hb, H; cbn [snd].
    + split; [eauto|]. split; [auto|]. discriminate.
    + split; [eauto|]. split; [discriminate|].
      intros e' He'. now injection He' as <-.
    + rewrite (ordinary_fault_of env x Hord Hf) in Hi. discriminate.
  - rewrite categories_ends, categories_try_ends.
    pose proof (ordinary_read_text env Hord) as Hr.
    destruct (read_text env) as [content|x]; cbn [snd].
    + split; [eauto|]. split; [auto|]. discriminate.
    + destruct (isinstance x FileNotFoundError); cbn [snd].
      * split; [eauto|]. split; [auto|]. discriminate.
      * rewrite (Hr x eq_refl). cbn [snd].
        split; [eauto|]. split; [discriminate|].
        intros e' He'. now injection He' as <-.
Qed.

Lemma categories_frame (env : Env) (db : Store (R:=R)) :
  fst (categories env db) = db /\
  forall i, snd (categories env db) <> Return (success i).
Proof.
  rewrite categories_ends.
  destruct (read_text env) as [content|e]; [split; auto; discriminate|].
  destruct (isinstance e FileNotFoundError), (isinstance e Exception);
    split; auto; discriminate.
Qed.





(* --------------------------------------------------------------- *)
(** *** Frame *)

Lemma success_not_error (i : Z) (m : string) :
  error_dict m <> success (R:=R) i.
Proof. unfold error_dict, success. intros H. discriminate H. Qed.

Lemma add_expense_except_not_success (e : exn) (db : Store (R:=R)) (i : Z) :
  snd (add_expense_except e db) <> Return (success i).
Proof.
  destruct (add_expense_except_returns e db) as (m & ->). cbn [snd].
  intros H. apply (success_not_error i m). congruence.
Qed.

Lemma add_expense_except_frame (e : exn) (db : Store (R:=R)) :
  fst (add_expense_except e db) = db.
Proof. destruct (add_expense_except_returns e db) as (m & ->). reflexivity. Qed.

(** C5.  A call of [add_expense] that reports success has appended
    exactly one row, the one under the reported id, after the rows that
    were there, which are as they were; every other call of [add],
    [list], [summarize] or [categories] leaves the whole store as it
    was.  So no call updates or deletes a row, and [list] and
    [summarize] never change the store. *)
Theorem store_only_grows (env : Env) (c : call) (db : Store (R:=R)) :
  (forall i, snd (invoke env c db) = Return (success i) ->
     exists a k sc n d,
       c = Add a k sc n d /\
       expenses (fst (invoke env c db))
       = (expenses db ++ [mkRow i (stored_date env d) a k sc n])%list) /\
  ((forall i, snd (invoke env c db) <> Return (success i)) ->
   fst (invoke env c db) = db) /\
  (exists new, expenses (fst (invoke env c db)) = (expenses db ++ new)%list /\
               (List.length new <= 1)%nat) /\
  match c with
  | Add _ _ _ _ _ => True
  | _ => fst (invoke env c db) = db
  end.
Proof.
  destruct c as [a c sc n d|s e|s e c|]; cbn [invoke].
  - destruct (add_expense_ends env a c sc n d db)
      as [(_ & H)|[(x & _ & _ & _ & H)|(x & _ & _ & _ & H)]];
      cbv zeta in H; rewrite H; cbn [fst snd id].
    + split; [|split; [|split; auto]].
      * intros i Hi. injection Hi as <-. now exists a, c, sc, n, d.
      * intros Hno. now destruct (Hno (high_water db + 1)).
      * eexists. split; [reflexivity|]. simpl. lia.
    + split; [|split; [|split; auto]].
      * intros i Hi. now apply add_expense_except_not_success in Hi.
      * intros _. apply add_expense_except_frame.
      * exists []. rewrite add_expense_except_frame, app_nil_r. auto.
    + split; [|split; [|split; auto]].
      * discriminate.
      * auto.
      * exists []. rewrite app_nil_r. auto.
  - destruct (list_expenses_ends env s e db)
      as [(l & _ & H)|[(x & _ & _ & _ & H)|(x & _ & _ & _ & H)]];
      rewrite H; cbn [fst snd];
      (split; [discriminate|]); (split; [auto|]);
      (split; [exists []; rewrite app_nil_r; auto | auto]).
  - destruct (summarize_ends env s e c db)
      as [(l & _ & H)|[(x & _ & _ & _ & H)|(x & _ & _ & _ & H)]];
      rewrite H; cbn [fst snd];
      (split; [discriminate|]); (split; [auto|]);
      (split; [exists []; rewrite app_nil_r; auto | auto]).
  - destruct (categories_frame env db) as (Hf & Hno). rewrite Hf.
    split; [|split; [auto|split; [exists []; rewrite app_nil_r; auto|auto]]].
    intros i Hi. now apply Hno in Hi.
Qed.

End Surface.

(* ================================================================= *)
(** ** Identifiers and initialisation *)

Section Identifiers.

Context {R : Type} {real : Real R}.

Local Open Scope string_scope.

Lemma max_rowid_cons (x : Row (R:=R)) (rows : list Row) :
  max_rowid (x :: rows) = Z.max (id x) (max_rowid rows).
Proof. reflexivity. Qed.

Lemma max_rowid_nonneg (rows : list (Row (R:=R))) : 0 <= max_rowid rows.
Proof.
  induction rows as [|x rows IH]; [reflexivity|].
  rewrite max_rowid_cons. lia.
Qed.

Lemma max_rowid_ge (rows : list (Row (R:=R))) (r : Row) :
  In r rows -> id r <= max_rowid rows.
Proof.
  induction rows as [|x rows IH]; [intros []|].
  rewrite max_rowid_cons. intros [->|H]; [|apply IH in H]; lia.
Qed.

Lemma max_rowid_snoc (rows : list (Row (R:=R))) (r : Row) :
  max_rowid (rows ++ [r]) = Z.max (max_rowid rows) (Z.max (id r) 0).
Proof.
  induction rows as [|x rows IH]; [cbn; lia|].
  rewrite <- app_comm_cons, !max_rowid_cons, IH. lia.
Qed.

Lemma max_rowid_filter (f : Row (R:=R) -> bool) (rows : list Row) :
  max_rowid (filter f rows) <= max_rowid rows.
Proof.
  induction rows as [|x rows IH]; [reflexivity|].
  cbn [filter]. destruct (f x); rewrite !max_rowid_cons; lia.
Qed.

Lemma high_water_ge (db : Store (R:=R)) (r : Row) :
  In r (expenses db) -> id r <= high_water db.
Proof. intros H. apply max_rowid_ge in H. unfold high_water. lia. Qed.

Lemma high_water_appended (db : Store (R:=R)) (r : Row) :
  id r = high_water db + 1 -> high_water (appended db r) = id r.
Proof.
  intros H. unfold high_water in *. unfold appended.
  cbn [expenses sqlite_sequence]. rewrite max_rowid_snoc.
  pose proof (max_rowid_nonneg (expenses db)). lia.
Qed.

Lemma added_id_success (i : Z) : added_id (R:=R) (Return (success i)) = Some i.
Proof. reflexivity. Qed.

Lemma added_id_error (m : string) :
  added_id (R:=R) (Return (error_dict m)) = None.
Proof. reflexivity. Qed.

Lemma climbs_same (db : Store (R:=R)) (out : outcome (value (R:=R))) :
  added_id out = None -> climbs db db out.
Proof. intros H. split; [lia|]. intros i. rewrite H. discriminate. Qed.

Lemma invoke_climbs (env : Env) (c : call) (db : Store (R:=R)) :
  climbs db (fst (invoke env c db)) (snd (invoke env c db)).
Proof.
  destruct c as [a c sc n d|s e|s e c|]; cbn [invoke].
  - destruct (add_expense_ends env a c sc n d db)
      as [(_ & H)|[(x & _ & _ & _ & H)|(x & _ & _ & _ & H)]];
      cbv zeta in H; rewrite H; cbn [fst snd id].
    + split.
      * rewrite high_water_appended; cbn [id]; lia.
      * intros i. rewrite added_id_success. intros Hi. injection Hi as <-.
        rewrite high_water_appended; cbn [id]; lia.
    + destruct (add_expense_except_returns x db) as (m & ->).
      apply climbs_same, added_id_error.
    + now apply climbs_same.
  - destruct (list_expenses_ends env s e db)
      as [(l & _ & H)|[(x & _ & _ & _ & H)|(x & _ & _ & _ & H)]];
      rewrite H; now apply climbs_same.
  - destruct (summarize_ends env s e c db)
      as [(l & _ & H)|[(x & _ & _ & _ & H)|(x & _ & _ & _ & H)]];
      rewrite H; now apply climbs_same.
  - rewrite categories_ends.
    destruct (read_text env) as [content|e]; [now apply climbs_same|].
    destruct (isinstance e FileNotFoundError), (isinstance e Exception);
      now apply climbs_same.
Qed.

Lemma startup_climbs (env : Env) (db : Store (R:=R)) :
  climbs db (fst (serve (Startup env) db)) (snd (serve (Startup env) db)).
Proof.
  cbn [serve]. unfold Py.bind. rewrite init_db_cases.
  destruct (connect_fault env); [now apply climbs_same|].
  destruct (execute_fault env); [now apply climbs_same|].
  destruct (Z.leb MAX_ROWID (high_water db)); [now apply climbs_same|].
  destruct (commit_fault env); [now apply climbs_same|].
  split; [|discriminate].
  unfold Py.ret, high_water. cbn [fst expenses sqlite_sequence].
  pose proof (max_rowid_filter not_test (expenses db)). lia.
Qed.

Lemma serve_climbs (ev : event) (db : Store (R:=R)) :
  climbs db (fst (serve ev db)) (snd (serve ev db)).
Proof.
  destruct ev as [env|env c]; [apply startup_climbs | apply invoke_climbs].
Qed.

(** The ids read off the outcomes are those of the successful adds. *)
Lemma added_id_iff_success (ev : event) (db : Store (R:=R)) (i : Z) :
  added_id (snd (serve ev db)) = Some i <->
  snd (serve ev db) = Return (success i).
Proof.
  assert (Hs : forall j, added_id (R:=R) (Return (success j)) = Some i <->
                         Return (success (R:=R) j) = Return (success i)).
  { intros j. rewrite added_id_success. split; intros H.
    - now injection H as ->.
    - injection H as ->. reflexivity. }
  assert (He : forall m, added_id (R:=R) (Return (error_dict m)) = Some i <->
                         Return (error_dict (R:=R) m) = Return (success i)).
  { intros m. rewrite added_id_error. split; discriminate. }
  destruct ev as [env|env [a c sc n d|s e|s e c|]]; cbn [serve invoke].
  - unfold Py.bind. rewrite init_db_cases.
    destruct (connect_fault env); [split; discriminate|].
    destruct (execute_fault env); [split; discriminate|].
    destruct (Z.leb MAX_ROWID (high_water db)); [split; discriminate|].
    destruct (commit_fault env); split; discriminate.
  - destruct (add_expense_ends env a c sc n d db)
      as [(_ & H)|[(x & _ & _ & _ & H)|(x & _ & _ & _ & H)]];
      cbv zeta in H; rewrite H.
    + apply Hs.
    + destruct (add_expense_except_returns x db) as (m & ->). apply He.
    + split; discriminate.
  - destruct (list_expenses_ends env s e db)
      as [(l & _ & H)|[(x & _ & _ & _ & H)|(x & _ & _ & _ & H)]];
      rewrite H; [split; discriminate | apply He | split; discriminate].
  - destruct (summarize_ends env s e c db)
      as [(l & _ & H)|[(x & _ & _ & _ & H)|(x & _ & _ & _ & H)]];
      rewrite H; [split; discriminate | apply He | split; discriminate].
  - rewrite categories_ends.
    destruct (read_text env) as [content|x]; [split; discriminate|].
    destruct (isinstance x FileNotFoundError), (isinstance x Exception);
      split; discriminate.
Qed.

Lemma run_cons (ev : event) (rest : list event) (db : Store (R:=R)) :
  run (ev :: rest) db =
  (fst (run rest (fst (serve ev db))),
   snd (serve ev db) :: snd (run rest (fst (serve ev db)))).
Proof.
  simpl. destruct (serve ev db) as [db1 out]. simpl.
  destruct (run rest db1); reflexivity.
Qed.




(** C10.  Every run of [init_db] that returns has deleted every row
    whose category is exactly ['test'], the rows that were stored
    before the run as well as its own probe row, and has kept the
    other rows in their order; with no fault and room for one more
    rowid the run does return. *)
Theorem init_db_deletes_test_rows (env : Env) (db : Store (R:=R)) :
  (forall db', init_db env db = (db', Return tt) ->
     expenses db'
     = filter (fun r => negb (String.eqb (category r) "test")) (expenses db) /\
     forall r, In r (expenses db) -> category r = "test" ->
               ~ In r (expenses db')) /\
  (quiet env -> high_water db < MAX_ROWID ->
   exists db', init_db env db = (db', Return tt)).
Proof.
  rewrite init_db_cases. split.
  - intros db' H.
    assert (E : expenses db' = filter not_test (expenses db)).
    { destruct (connect_fault env); [discriminate|].
      destruct (execute_fault env); [discriminate|].
      destruct (Z.leb MAX_ROWID (high_water db)); [discriminate|].
      destruct (commit_fault env); [discriminate|].
      injection H as <-. reflexivity. }
    split; [exact E|].
    intros r _ Hc Hin. rewrite E in Hin. apply filter_In in Hin as (_ & Hin).
    unfold not_test in Hin. rewrite Hc in Hin. discriminate.
  - intros (Hc & He & _ & Hm) Hroom. rewrite Hc, He, Hm.
    destruct (Z.leb_spec MAX_ROWID (high_water db)); [lia|eauto].
Qed.

End Identifiers.

(* ================================================================= *)
(** ** Initialisation and the row counter *)

Section Initialisation.

Context {R : Type} {real : Real R}.

Local Open Scope string_scope.

Lemma filter_keeps_all {A} (f : A -> bool) (l : list A) :
  (forall x, In x l -> f x = true) -> filter f l = l.
Proof.
  induction l as [|x l IH]; intros H; simpl; auto.
  rewrite (H x (or_introl eq_refl)), IH; auto.
  intros y Hy. apply H. now right.
Qed.

Lemma init_db_returns (env : Env) (db db' : Store (R:=R)) :
  init_db env db = (db', Return tt) ->
  db' = {| expenses := filter not_test (expenses db);
           sqlite_sequence := high_water db + 1 |}.
Proof.
  rewrite init_db_cases.
  destruct (connect_fault env); [discriminate|].
  destruct (execute_fault env); [discriminate|].
  destruct (Z.leb MAX_ROWID (high_water db)); [discriminate|].
  destruct (commit_fault env); [discriminate|].
  now intros H; injection H as <-.
Qed.

(** X1.  A run of [init_db] that raises has changed nothing in the
    store, the probe row included, and what it raises is the fault it
    met: a fault of the environment or the engine's refusal of a new
    rowid. *)
Theorem init_db_raise_rolls_back (env : Env) (db db' : Store (R:=R)) (e : exn) :
  init_db env db = (db', Raise e) ->
  db' = db /\ fault_of env e.
Proof.
  rewrite init_db_cases. unfold fault_of.
  destruct (connect_fault env) as [x|].
  { intros H; injection H as <- <-. auto. }
  destruct (execute_fault env) as [x|].
  { intros H; injection H as <- <-. auto. }
  destruct (Z.leb MAX_ROWID (high_water db)).
  { intros H; injection H as <- <-. auto 10. }
  destruct (commit_fault env) as [x|].
  { intros H; injection H as <- <-. auto 10. }
  discriminate.
Qed.

(** X2.  A run of [init_db] that returns uses up one rowid (the
    largest rowid ever held goes up by exactly one, so the next expense
    skips an id), keeps every row when no row has category ['test'],
    and leaves rows that a second run keeps as they are. *)
Theorem init_db_uses_one_rowid (env : Env) (db db' : Store (R:=R)) :
  init_db env db = (db', Return tt) ->
  high_water db' = high_water db + 1 /\
  ((forall r, In r (expenses db) -> category r <> "test") ->
   expenses db' = expenses db) /\
  (forall env2 db2, init_db env2 db' = (db2, Return tt) ->
                    expenses db2 = expenses db').
Proof.
  intros H. apply init_db_returns in H. subst db'. split; [|split].
  - unfold high_water at 1. cbn [expenses sqlite_sequence].
    pose proof (max_rowid_filter not_test (expenses db)).
    unfold high_water in *. lia.
  - intros Hno. cbn [expenses]. apply filter_keeps_all.
    intros r Hr. unfold not_test.
    destruct (String.eqb_spec (category r) "test") as [E|N]; auto.
    now apply Hno in Hr.
  - intros env2 db2 H2. apply init_db_returns in H2. subst db2.
    cbn [expenses]. apply filter_idem.
Qed.

(** X3.  When the table has held the largest possible rowid, a call
    of [add_expense] that reaches the insert stores nothing and returns
    the generic error mapping with the engine's text. *)
Theorem add_expense_when_rowids_run_out
        (env : Env) (amount : R) (category subcategory note : string)
        (date : option string) (db : Store (R:=R)) :
  connect_fault env = None -> execute_fault env = None ->
  MAX_ROWID <= high_water db ->
  add_expense env amount category subcategory note date db
  = (db, Return (error_dict "Database error: database or disk is full")).
Proof.
  intros Hc He Hfull. unfold add_expense, Py.try_except.
  rewrite add_expense_try_cases, Hc, He.
  destruct (Z.leb_spec MAX_ROWID (high_water db)); [reflexivity|lia].
Qed.

Lemma nodup_ids_filter (f : Row (R:=R) -> bool) (rows : list Row) :
  NoDup (map id rows) -> NoDup (map id (filter f rows)).
Proof.
  induction rows as [|x rows IH]; simpl; auto.
  intros H. inversion H as [|? ? Hx Hrest]; subst.
  destruct (f x); simpl; auto. constructor; auto.
  intros Hin. apply Hx. apply in_map_iff in Hin as (y & Hy & Hin).
  apply filter_In in Hin as (Hin & _). apply in_map_iff. eauto.
Qed.

Lemma nodup_ids_appended (db : Store (R:=R)) (r : Row) :
  NoDup (map id (expenses db)) -> id r = high_water db + 1 ->
  NoDup (map id (expenses (appended db r))).
Proof.
  intros Hn Hid. unfold appended. cbn [expenses].
  rewrite map_app. simpl. apply NoDup_app; auto.
  - repeat constructor. intros [].
  - intros i Hi [<-|[]].
    apply in_map_iff in Hi as (y & Hy & Hin).
    apply high_water_ge in Hin. lia.
Qed.

Lemma serve_keeps_ids_distinct (ev : event) (db : Store (R:=R)) :
  NoDup (map id (expenses db)) ->
  NoDup (map id (expenses (fst (serve ev db)))).
Proof.
  intros Hn. destruct ev as [env|env [a c sc n d|s e|s e c|]];
    cbn [serve invoke].
  - unfold Py.bind. rewrite init_db_cases.
    destruct (connect_fault env); auto.
    destruct (execute_fault env); auto.
    destruct (Z.leb MAX_ROWID (high_water db)); auto.
    destruct (commit_fault env); auto.
    unfold Py.ret. cbn [fst expenses]. now apply nodup_ids_filter.
  - destruct (add_expense_ends env a c sc n d db)
      as [(_ & H)|[(x & _ & _ & _ & H)|(x & _ & _ & _ & H)]];
      cbv zeta in H; rewrite H; cbn [fst]; auto.
    + now apply nodup_ids_appended.
    + now rewrite add_expense_except_frame.
  - destruct (list_expenses_ends env s e db)
      as [(l & _ & H)|[(x & _ & _ & _ & H)|(x & _ & _ & _ & H)]];
      now rewrite H.
  - destruct (summarize_ends env s e c db)
      as [(l & _ & H)|[(x & _ & _ & _ & H)|(x & _ & _ & _ & H)]];
      now rewrite H.
  - now rewrite (proj1 (categories_frame env db)).
Qed.

(** X4.  The primary key stays a key: when the ids of the stored
    rows are pairwise distinct, they are pairwise distinct after every
    sequence of module loads and calls, under any faults. *)
Theorem ids_stay_distinct (events : list event) (db : Store (R:=R)) :
  NoDup (map id (expenses db)) ->
  NoDup (map id (expenses (fst (run events db)))).
Proof.
  revert db. induction events as [|ev rest IH]; intros db Hn; [exact Hn|].
  rewrite run_cons. cbn [fst]. apply IH. now apply serve_keeps_ids_distinct.
Qed.




End Initialisation.

(* ================================================================= *)
(** ** Reads after writes, and empty results *)

Section Reads.

Context {R : Type} {real : Real R}.

Local Open Scope string_scope.

Lemma le_trans (a b c : string) :
  Text.le a b = true -> Text.le b c = true -> Text.le a c = true.
Proof.
  unfold Text.le, String.leb.
  destruct (String.compare a b) eqn:Eab; try discriminate;
    destruct (String.compare b c) eqn:Ebc; try discriminate; intros _ _.
  - apply String.compare_eq_iff in Eab, Ebc. subst.
    now rewrite compare_refl.
  - apply String.compare_eq_iff in Eab. subst. now rewrite Ebc.
  - apply String.compare_eq_iff in Ebc. subst. now rewrite Eab.
  - now rewrite (compare_lt_trans a b c Eab Ebc).
Qed.

Lemma lt_not_le (a b : string) :
  Text.lt a b = true -> Text.le b a = false.
Proof.
  unfold Text.lt, Text.le, String.ltb, String.leb.
  rewrite (String.compare_antisym b a).
  destruct (String.compare a b); simpl; congruence.
Qed.

Lemma sort_nil_iff {A} (before : A -> A -> bool) (l : list A) :
  Sorting.sort before l = [] <-> l = [].
Proof.
  split; [|now intros ->].
  intros H. pose proof (sort_perm before l) as P. rewrite H in P.
  now apply Permutation_sym, Permutation_nil in P.
Qed.

Lemma filter_nil_iff {A} (f : A -> bool) (l : list A) :
  filter f l = [] <-> forall x, In x l -> f x = false.
Proof.
  induction l as [|x l IH]; simpl.
  - split; auto. intros _ y [].
  - destruct (f x) eqn:E.
    + split; [discriminate|]. intros H.
      rewrite (H x (or_introl eq_refl)) in E. discriminate.
    + rewrite IH. split.
      * intros H y [<-|Hy]; auto.
      * intros H y Hy. apply H. now right.
Qed.

Lemma map_nil_iff {A B} (f : A -> B) (l : list A) : map f l = [] <-> l = [].
Proof. destruct l; simpl; split; congruence. Qed.

Lemma distinct_nil_iff (l : list string) : distinct l = [] <-> l = [].
Proof. destruct l; simpl; split; congruence. Qed.

Lemma select_expenses_nil_iff (w : list cond) (db : Store (R:=R)) :
  select_expenses w db = [] <->
  forall r, In r (expenses db) -> where_ w r = false.
Proof. unfold select_expenses. now rewrite sort_nil_iff, filter_nil_iff. Qed.

Lemma select_summary_nil_iff (w : list cond) (db : Store (R:=R)) :
  select_summary w db = [] <->
  forall r, In r (expenses db) -> where_ w r = false.
Proof.
  unfold select_summary, group_by_category.
  now rewrite sort_nil_iff, map_nil_iff, distinct_nil_iff, map_nil_iff,
    filter_nil_iff.
Qed.

(** The [WHERE] clause of [summarize], read off the arguments. *)
Lemma summary_where (s e c : option string) (r : Row (R:=R)) :
  where_ (date_conds s e ++ (if truthy c then [CategoryEq (param c)] else []))
         r
  = in_range (given s) (given e) r
    && match given c with
       | Some k => String.eqb (category r) k
       | None => true
       end.
Proof.
  rewrite where_app, date_conds_in_range. f_equal.
  unfold given. destruct (truthy c) eqn:E; [|reflexivity].
  destruct c as [k|]; [|discriminate]. simpl. apply andb_true_r.
Qed.

(** X6.  With no fault of the database layer, [list_expenses]
    returns the empty list exactly when no stored row lies within the
    bounds it applies, and [summarize] returns the empty list exactly
    when no stored row passes its date and category filters (an empty
    string counting as no filter). *)
Theorem empty_results_iff_nothing_matches
        (env : Env) (start_date end_date cat : option string)
        (db : Store (R:=R)) :
  quiet env ->
  (snd (list_expenses env start_date end_date db) = Return (VList []) <->
   forall r, In r (expenses db) ->
             in_range (given start_date) (given end_date) r = false) /\
  (snd (summarize env start_date end_date cat db) = Return (VList []) <->
   forall r, In r (expenses db) ->
             in_range (given start_date) (given end_date) r
             && match given cat with
                | Some k => String.eqb (category r) k
                | None => true
                end = false).
Proof.
  intros Hq. split.
  - rewrite (list_expenses_quiet env _ _ db Hq). cbn [snd]. split.
    + intros H. injection H as H. apply map_nil_iff in H.
      intros r Hr. rewrite <- date_conds_in_range.
      now apply (proj1 (select_expenses_nil_iff _ db) H).
    + intros H.
      assert (E : select_expenses (date_conds start_date end_date) db = []).
      { apply select_expenses_nil_iff. intros r Hr.
        rewrite date_conds_in_range. now apply H. }
      now rewrite E.
  - rewrite (summarize_quiet env _ _ _ db Hq). cbn [snd]. split.
    + intros H. injection H as H. apply map_nil_iff in H.
      intros r Hr. rewrite <- summary_where.
      now apply (proj1 (select_summary_nil_iff _ db) H).
    + intros H.
      assert (E : select_summary
                    (date_conds start_date end_date ++
                     (if truthy cat then [CategoryEq (param cat)]
                      else []))%list db = []).
      { apply select_summary_nil_iff. intros r Hr.
        rewrite summary_where. now apply H. }
      now rewrite E.
Qed.

Lemma between_inverted (lo hi : string) (r : Row (R:=R)) :
  Text.lt hi lo = true -> holds (DateBetween lo hi) r = false.
Proof.
  intros H. cbn [holds]. unfold Text.ge.
  destruct (String.leb lo (date r)) eqn:E1; [|reflexivity].
  destruct (Text.le (date r) hi) eqn:E2; [|reflexivity].
  pose proof (le_trans lo (date r) hi E1 E2) as E.
  apply lt_not_le in H. congruence.
Qed.

(** X7.  With no fault of the database layer, two non-empty bounds
    with [end_date] lexically before [start_date] select nothing:
    [list_expenses] and [summarize] both return the empty list,
    whatever the store holds. *)
Theorem inverted_range_selects_nothing
        (env : Env) (lo hi : string) (cat : option string)
        (db : Store (R:=R)) :
  quiet env -> lo <> "" -> hi <> "" -> Text.lt hi lo = true ->
  snd (list_expenses env (Some lo) (Some hi) db) = Return (VList []) /\
  snd (summarize env (Some lo) (Some hi) cat db) = Return (VList []).
Proof.
  intros Hq Hlo Hhi Hinv.
  assert (Hd : date_conds (Some lo) (Some hi) = [DateBetween lo hi]).
  { unfold date_conds. destruct lo, hi; simpl; congruence. }
  split.
  - rewrite (list_expenses_quiet env _ _ db Hq), Hd. cbn [snd].
    assert (E : select_expenses [DateBetween lo hi] db = []).
    { apply select_expenses_nil_iff. intros r _. cbn [where_ forallb].
      now rewrite between_inverted. }
    now rewrite E.
  - rewrite (summarize_quiet env _ _ _ db Hq), Hd. cbn [snd].
    assert (E : select_summary
                  ([DateBetween lo hi] ++
                   (if truthy cat then [CategoryEq (param cat)]
                    else []))%list db = []).
    { apply select_summary_nil_iff. intros r _. cbn [app where_ forallb].
      now rewrite between_inverted. }
    now rewrite E.
Qed.

Lemma add_expense_success_store (env : Env) (a : R) (c sc n : string)
      (d : option string) (db : Store (R:=R)) (i : Z) :
  snd (add_expense env a c sc n d db) = Return (success i) ->
  fst (add_expense env a c sc n d db)
  = appended db (mkRow i (stored_date env d) a c sc n).
Proof.
  destruct (add_expense_ends env a c sc n d db)
    as [(_ & H)|[(x & _ & _ & _ & H)|(x & _ & _ & _ & H)]];
    cbv zeta in H; rewrite H; cbn [fst snd id].
  - intros Hi. injection Hi as <-. reflexivity.
  - intros Hi. now apply add_expense_except_not_success in Hi.
  - discriminate.
Qed.

(** X8.  An expense that [add_expense] reports as added is there for
    the next reader: an unfiltered [list_expenses] that meets no fault
    returns the mappings of the new row and of all the rows that were
    stored before, and nothing else. *)
Theorem added_expense_is_listed
        (env env' : Env) (amt : R) (cat sub note : string)
        (date : option string) (db : Store (R:=R)) (i : Z) :
  snd (add_expense env amt cat sub note date db)
    = Return (success i) ->
  quiet env' ->
  exists rs,
    snd (list_expenses env' None None
           (fst (add_expense env amt cat sub note date db)))
      = Return (VList (map row_mapping rs)) /\
    Permutation rs
      (mkRow i (stored_date env date) amt cat sub note
         :: expenses db).
Proof.
  intros Hi Hq. rewrite (add_expense_success_store _ _ _ _ _ _ _ _ Hi).
  rewrite (list_expenses_quiet env' _ _ _ Hq). cbn [snd].
  eexists. split; [reflexivity|].
  rewrite select_expenses_perm. cbn [date_conds truthy andb].
  unfold where_. cbn [forallb]. rewrite filter_all.
  unfold appended. cbn [expenses].
  symmetry. apply Permutation_cons_append.
Qed.

Lemma distinct_constant (l : list string) (c : string) :
  l <> [] -> (forall x, In x l -> x = c) -> distinct l = [c].
Proof.
  induction l as [|x l IH]; [congruence|]. intros _ H.
  assert (Hx : x = c) by (apply H; now left). subst x.
  cbn [distinct]. f_equal. apply filter_nil_iff.
  intros y Hy. apply (proj1 (distinct_in l y)) in Hy.
  rewrite (H y (or_intror Hy)), String.eqb_refl. reflexivity.
Qed.

Lemma where_category (c : string) (r : Row (R:=R)) :
  where_ [CategoryEq c] r = String.eqb (category r) c.
Proof. cbn [where_ forallb holds]. apply andb_true_r. Qed.

(** X9.  An expense that [add_expense] reports as added under a
    non-empty category is counted by the next [summarize] of that
    category: with no fault it returns exactly one line, whose count is
    one more than the number of rows the category had and whose total
    is the engine's sum over their amounts followed by the new one. *)
Theorem added_expense_is_summarized
        (env env' : Env) (amt : R) (cat sub note : string)
        (date : option string) (db : Store (R:=R)) (i : Z) :
  snd (add_expense env amt cat sub note date db)
    = Return (success i) ->
  quiet env' ->
  cat <> "" ->
  snd (summarize env' None None (Some cat)
         (fst (add_expense env amt cat sub note date db)))
  = Return (VList
      [summary_mapping
         (mkSummary cat
            (real_sum (map amount (group (expenses db) cat) ++ [amt]))
            (Z.of_nat (List.length (group (expenses db) cat)) + 1))]).
Proof.
  intros Hi Hq Hc. rewrite (add_expense_success_store _ _ _ _ _ _ _ _ Hi).
  rewrite (summarize_quiet env' _ _ _ _ Hq). cbn [snd].
  assert (Ht : truthy (Some cat) = true)
    by (destruct cat; simpl; congruence).
  rewrite Ht. cbn [date_conds truthy andb app param].
  unfold select_summary, appended. cbn [expenses].
  set (new := mkRow i (stored_date env date) amt cat sub note).
  assert (EL : filter (where_ [CategoryEq cat]) (expenses db ++ [new])
               = (group (expenses db) cat ++ [new])%list).
  { rewrite filter_app. f_equal.
    - apply filter_ext. intros r. apply where_category.
    - cbn [filter]. rewrite where_category. cbn [category new].
      now rewrite String.eqb_refl. }
  rewrite EL. set (L := (group (expenses db) cat ++ [new])%list).
  assert (HL : forall r, In r L -> category r = cat).
  { intros r Hr. apply in_app_or in Hr as [Hr|[<-|[]]]; [|reflexivity].
    apply filter_In in Hr as (_ & Hr). now apply String.eqb_eq. }
  assert (ED : distinct (map category L) = [cat]).
  { apply distinct_constant.
    - unfold L. rewrite map_app. now destruct (map _ (group _ _)).
    - intros x Hx. apply in_map_iff in Hx as (r & <- & Hr). now apply HL. }
  unfold group_by_category. rewrite ED. cbn [map Sorting.sort Sorting.insert].
  assert (EG : group L cat = L).
  { apply filter_keeps_all. intros r Hr. apply String.eqb_eq. now apply HL. }
  unfold aggregate. rewrite EG. unfold L.
  rewrite map_app, length_app. cbn [map List.length amount new].
  rewrite Nat2Z.inj_add. reflexivity.
Qed.

End Reads.

(* ================================================================= *)
(** ** Order of the listing, and counts *)

Section Listing.

Context {R : Type} {real : Real R}.

Local Open Scope string_scope.

Lemma filter_perm {A} (f : A -> bool) (l1 l2 : list A) :
  Permutation l1 l2 -> Permutation (filter f l1) (filter f l2).
Proof.
  induction 1 as [|x l1 l2 _ IH|x y l|l1 l2 l3 _ IH1 _ IH2]; simpl.
  - constructor.
  - destruct (f x); auto.
  - destruct (f x), (f y); auto. apply perm_swap.
  - now transitivity (filter f l2).
Qed.

(** Two ordered arrangements of the same elements are the same list
    when the order tells the elements apart. *)
Lemma ordered_perm_unique {A} (before : A -> A -> bool) (l1 l2 : list A) :
  (forall x y, In x l1 -> In y l1 ->
               before x y = true -> before y x = true -> x = y) ->
  Sorting.ordered before l1 -> Sorting.ordered before l2 ->
  Permutation l1 l2 -> l1 = l2.
Proof.
  revert l2. induction l1 as [|x t1 IH]; intros l2 Hanti H1 H2 P.
  - now apply Permutation_nil in P.
  - destruct l2 as [|y t2].
    { apply Permutation_sym, Permutation_nil in P. discriminate. }
    inversion H1 as [|? ? Ht1 Hx]; subst.
    inversion H2 as [|? ? Ht2 Hy]; subst.
    rewrite Forall_forall in Hx, Hy.
    assert (Exy : x = y).
    { assert (Hxin : In x (y :: t2))
        by (eapply Permutation_in; [exact P | now left]).
      assert (Hyin : In y (x :: t1))
        by (eapply Permutation_in; [symmetry; exact P | now left]).
      destruct Hxin as [->|Hxin]; [reflexivity|].
      destruct Hyin as [->|Hyin]; [reflexivity|].
      apply Hanti; [now left | now right | now apply Hx | now apply Hy]. }
    subst y. f_equal. apply IH; auto.
    + intros a b Ha Hb. apply Hanti; now right.
    + now apply Permutation_cons_inv in P.
Qed.

Lemma same_id_same_row (rows : list (Row (R:=R))) (a b : Row) :
  NoDup (map id rows) -> In a rows -> In b rows -> id a = id b -> a = b.
Proof.
  induction rows as [|x rows IH]; simpl; [tauto|].
  intros N Ha Hb E. inversion N as [|? ? Hx Hrest]; subst.
  destruct Ha as [->|Ha], Hb as [->|Hb]; auto.
  - exfalso. apply Hx. rewrite E. now apply in_map.
  - exfalso. apply Hx. rewrite <- E. now apply in_map.
Qed.

Lemma date_id_desc_antisym (a b : Row (R:=R)) :
  date_id_desc a b = true -> date_id_desc b a = true -> id a = id b.
Proof.
  rewrite !date_id_desc_iff.
  intros [Hab|[Eab Iab]] [Hba|[Eba Iba]].
  - pose proof (compare_lt_trans _ _ _ Hab Hba) as H.
    rewrite compare_refl in H. discriminate.
  - rewrite Eba, compare_refl in Hab. discriminate.
  - rewrite Eab, compare_refl in Hba. discriminate.
  - lia.
Qed.

(** X10.  The listing does not depend on how the rows lie in the
    table: for two stores that hold the same rows in any order, with
    ids pairwise distinct, [list_expenses] with no fault returns the
    same sequence.  The order by date and id leaves no tie open. *)
Theorem listing_ignores_storage_order
        (env : Env) (start_date end_date : option string)
        (db1 db2 : Store (R:=R)) :
  quiet env ->
  NoDup (map id (expenses db1)) ->
  Permutation (expenses db1) (expenses db2) ->
  snd (list_expenses env start_date end_date db1)
  = snd (list_expenses env start_date end_date db2).
Proof.
  intros Hq Hn P.
  rewrite (list_expenses_quiet env _ _ db1 Hq),
          (list_expenses_quiet env _ _ db2 Hq). cbn [snd].
  set (w := date_conds start_date end_date).
  assert (E : select_expenses w db1 = select_expenses w db2);
    [|now rewrite E].
  apply (ordered_perm_unique date_id_desc).
  - intros a b Ha Hb Hab Hba.
    apply (same_id_same_row (expenses db1)); auto.
    + eapply Permutation_in in Ha; [|apply select_expenses_perm].
      now apply filter_In in Ha.
    + eapply Permutation_in in Hb; [|apply select_expenses_perm].
      now apply filter_In in Hb.
    + now apply date_id_desc_antisym.
  - apply select_expenses_ordered.
  - apply select_expenses_ordered.
  - rewrite !select_expenses_perm. now apply filter_perm.
Qed.

Lemma total_count_perm (l1 l2 : list (Summary (R:=R))) :
  Permutation l1 l2 -> total_count l1 = total_count l2.
Proof.
  unfold total_count.
  induction 1 as [|x l1 l2 _ IH|x y l|l1 l2 l3 _ IH1 _ IH2]; simpl; lia.
Qed.

Lemma one_group_holds_it (cs : list string) (k : string) :
  NoDup cs -> In k cs ->
  fold_right Z.add 0 (map (fun c => if String.eqb k c then 1 else 0) cs) = 1.
Proof.
  induction cs as [|c cs IH]; simpl; [tauto|].
  intros N Hin. inversion N as [|? ? Hc Hrest]; subst.
  destruct (String.eqb_spec k c) as [->|Hne].
  - assert (Z0 : fold_right Z.add 0
                   (map (fun c0 => if String.eqb c c0 then 1 else 0) cs) = 0).
    { clear -Hc. induction cs as [|d cs IH]; simpl; auto.
      destruct (String.eqb_spec c d) as [->|_].
      - exfalso. apply Hc. now left.
      - rewrite IH; auto. intros H. apply Hc. now right. }
    lia.
  - destruct Hin as [->|Hin]; [congruence|]. rewrite IH; auto.
Qed.

Lemma group_counts_add_up (rows : list (Row (R:=R))) (cs : list string) :
  NoDup cs -> (forall r, In r rows -> In (category r) cs) ->
  fold_right Z.add 0
    (map (fun c => Z.of_nat (List.length (group rows c))) cs)
  = Z.of_nat (List.length rows).
Proof.
  intros N. induction rows as [|x rows IH]; intros Hcov.
  - simpl. clear. induction cs; simpl; auto.
  - assert (Hsplit : forall l : list string,
      fold_right Z.add 0
        (map (fun c => Z.of_nat (List.length (group (x :: rows) c))) l)
      = fold_right Z.add 0
          (map (fun c => if String.eqb (category x) c then 1 else 0) l)
        + fold_right Z.add 0
            (map (fun c => Z.of_nat (List.length (group rows c))) l)).
    { induction l as [|c l IHl]; [reflexivity|].
      cbn [map fold_right]. rewrite IHl. unfold group at 1. cbn [filter].
      fold (group rows c).
      destruct (String.eqb (category x) c); cbn [List.length]; lia. }
    rewrite Hsplit, IH, one_group_holds_it; auto.
    + cbn [List.length]. lia.
    + apply Hcov. now left.
    + intros r Hr. apply Hcov. now right.
Qed.

(** X11.  The counts of a summary add up to the listing: with no
    fault, the [count] fields returned by [summarize] for given date
    bounds and no category sum to the number of rows [list_expenses]
    returns for the same bounds. *)
Theorem summary_counts_add_up_to_listing
        (env : Env) (start_date end_date : option string)
        (db : Store (R:=R)) :
  quiet env ->
  exists ss rs,
    snd (summarize env start_date end_date None db)
      = Return (VList (map summary_mapping ss)) /\
    snd (list_expenses env start_date end_date db)
      = Return (VList (map row_mapping rs)) /\
    fold_right Z.add 0 (map count ss) = Z.of_nat (List.length rs).
Proof.
  intros Hq.
  rewrite (summarize_quiet env _ _ _ db Hq),
          (list_expenses_quiet env _ _ db Hq). cbn [snd truthy].
  rewrite app_nil_r. set (w := date_conds start_date end_date).
  exists (select_summary w db), (select_expenses w db).
  split; [reflexivity|]. split; [reflexivity|].
  rewrite (Permutation_length (select_expenses_perm w db)).
  fold (total_count (select_summary w db)). unfold select_summary.
  rewrite <- (total_count_perm _ _ (sort_perm total_desc _)).
  unfold total_count, group_by_category. rewrite map_map. cbn [count aggregate].
  apply group_counts_add_up.
  - apply distinct_nodup.
  - intros r Hr. apply distinct_in. now apply in_map.
Qed.

End Listing.

(* ================================================================= *)
(** ** The default date *)

Section Dates.

Local Open Scope string_scope.
Local Open Scope nat_scope.

Lemma length_app_string (a b : string) :
  String.length (a ++ b) = (String.length a + String.length b)%nat.
Proof. induction a; simpl; congruence. Qed.

Lemma compare_app_same_length (a b x y : string) :
  String.length a = String.length b ->
  String.compare (a ++ x) (b ++ y)
  = match String.compare a b with
    | Eq => String.compare x y
    | o => o
    end.
Proof.
  revert b. induction a as [|c a IH]; intros [|d b] H; try discriminate.
  - simpl. now destruct (String.compare x y).
  - simpl in *. destruct (Ascii.compare c d); auto.
Qed.

Lemma digits_rev_S (f n : nat) :
  Text.digits_rev (S f) n
  = if Nat.ltb n 10 then [Text.digit n]
    else Text.digit n :: Text.digits_rev f (Nat.div n 10).
Proof. reflexivity. Qed.

Lemma div10_lt_pow (w n : nat) : n < 10 ^ S w -> n / 10 < 10 ^ w.
Proof.
  rewrite Nat.pow_succ_r'. intros H.
  apply Nat.Div0.div_lt_upper_bound. exact H.
Qed.

Lemma numeral_zero (w : nat) : numeral w 0 = repeat "0"%char w.
Proof.
  induction w as [|w IH]; [reflexivity|].
  cbn [numeral]. change (0 / 10) with 0. rewrite IH.
  change [Text.digit 0] with ["0"%char]. symmetry. apply repeat_cons.
Qed.

(** With fuel for [width] digits, padding the digits gives the
    numeral. *)
Lemma padded_digits (w n : nat) :
  1 <= w -> n < 10 ^ w ->
  (repeat "0"%char (w - List.length (Text.digits_rev w n))
     ++ rev (Text.digits_rev w n))%list
  = numeral w n.
Proof.
  revert n. induction w as [|w IH]; intros n Hw Hn; [lia|].
  rewrite digits_rev_S. cbn [numeral].
  destruct (Nat.ltb_spec n 10) as [Hs|Hl].
  - replace (S w - List.length [Text.digit n]) with w
      by (cbn [List.length]; lia).
    cbn [rev app]. rewrite Nat.div_small by exact Hs.
    now rewrite numeral_zero.
  - assert (Hw' : 1 <= w).
    { destruct w; [|lia]. cbn in Hn. lia. }
    cbn [List.length rev]. rewrite app_assoc. f_equal.
    replace (S w - S (List.length (Text.digits_rev w (n / 10))))
      with (w - List.length (Text.digits_rev w (n / 10))) by lia.
    apply IH; [exact Hw'|]. now apply div10_lt_pow.
Qed.

(** More fuel than digits changes nothing. *)
Lemma digits_rev_fuel (f g n : nat) :
  n < 10 ^ S f -> n < 10 ^ S g ->
  Text.digits_rev (S f) n = Text.digits_rev (S g) n.
Proof.
  revert g n. induction f as [|f IH]; intros g n Hf Hg;
    rewrite !digits_rev_S; destruct (Nat.ltb_spec n 10) as [Hs|Hl]; auto.
  - cbn in Hf. lia.
  - destruct g as [|g]; [cbn in Hg; lia|].
    f_equal. apply IH; now apply div10_lt_pow.
Qed.

Lemma pad_numeral (w n : nat) :
  1 <= w -> n < 10 ^ w ->
  Text.pad w n = string_of_list_ascii (numeral w n).
Proof.
  intros Hw Hn. unfold Text.pad. cbv zeta. f_equal.
  destruct w as [|w]; [lia|].
  rewrite (digits_rev_fuel n w n); auto.
  - now apply padded_digits.
  - apply Nat.lt_trans with (10 ^ n).
    + apply Nat.pow_gt_lin_r; lia.
    + apply Nat.pow_lt_mono_r; lia.
Qed.

Lemma numeral_length (w n : nat) : List.length (numeral w n) = w.
Proof.
  revert n. induction w as [|w IH]; intros n; [reflexivity|].
  cbn [numeral]. rewrite length_app, IH. simpl. lia.
Qed.

Lemma string_of_list_app (a b : list ascii) :
  string_of_list_ascii (a ++ b)%list
  = string_of_list_ascii a ++ string_of_list_ascii b.
Proof. induction a; simpl; congruence. Qed.

Lemma string_of_list_length (a : list ascii) :
  String.length (string_of_list_ascii a) = List.length a.
Proof. induction a; simpl; congruence. Qed.

Lemma digit_compare (n m : nat) :
  Ascii.compare (Text.digit n) (Text.digit m)
  = Nat.compare (n mod 10) (m mod 10).
Proof.
  unfold Text.digit.
  pose proof (Nat.mod_upper_bound n 10 ltac:(lia)) as Hn.
  pose proof (Nat.mod_upper_bound m 10 ltac:(lia)) as Hm.
  revert Hn Hm. generalize (n mod 10) as a, (m mod 10) as b. intros a b Ha Hb.
  do 10 (destruct a as [|a];
         [do 10 (destruct b as [|b]; [reflexivity|]); lia|]).
  lia.
Qed.

Lemma compare_by_digits (n m : nat) :
  match Nat.compare (n / 10) (m / 10) with
  | Eq => Nat.compare (n mod 10) (m mod 10)
  | o => o
  end = Nat.compare n m.
Proof.
  pose proof (Nat.div_mod_eq n 10) as En.
  pose proof (Nat.div_mod_eq m 10) as Em.
  pose proof (Nat.mod_upper_bound n 10 ltac:(lia)) as Hn.
  pose proof (Nat.mod_upper_bound m 10 ltac:(lia)) as Hm.
  destruct (Nat.compare_spec (n / 10) (m / 10)) as [E|L|G].
  - destruct (Nat.compare_spec (n mod 10) (m mod 10)) as [E'|L'|G'];
      symmetry.
    + apply Nat.compare_eq_iff. lia.
    + apply Nat.compare_lt_iff. lia.
    + apply Nat.compare_gt_iff. lia.
  - symmetry. apply Nat.compare_lt_iff. lia.
  - symmetry. apply Nat.compare_gt_iff. lia.
Qed.

Lemma numeral_compare (w n m : nat) :
  n < 10 ^ w -> m < 10 ^ w ->
  String.compare (string_of_list_ascii (numeral w n))
                 (string_of_list_ascii (numeral w m))
  = Nat.compare n m.
Proof.
  revert n m. induction w as [|w IH]; intros n m Hn Hm.
  - cbn in Hn, Hm. assert (n = 0) by lia. assert (m = 0) by lia.
    subst. reflexivity.
  - cbn [numeral]. rewrite !string_of_list_app.
    rewrite compare_app_same_length
      by now rewrite !string_of_list_length, !numeral_length.
    rewrite IH by now apply div10_lt_pow.
    cbn [string_of_list_ascii String.compare]. rewrite digit_compare.
    rewrite <- (compare_by_digits n m).
    destruct (Nat.compare (n / 10) (m / 10)); auto.
    now destruct (Nat.compare (n mod 10) (m mod 10)).
Qed.

Lemma pad_compare (w n m : nat) :
  1 <= w -> n < 10 ^ w -> m < 10 ^ w ->
  String.compare (Text.pad w n) (Text.pad w m) = Nat.compare n m.
Proof.
  intros Hw Hn Hm. rewrite !pad_numeral by assumption.
  now apply numeral_compare.
Qed.

Lemma pad_length (w n : nat) :
  1 <= w -> n < 10 ^ w -> String.length (Text.pad w n) = w.
Proof.
  intros Hw Hn. rewrite pad_numeral by assumption.
  now rewrite string_of_list_length, numeral_length.
Qed.

(** X12.  The text [add_expense] stores for a missing date sorts as
    the calendar does: for calendar dates, [str(date)] has ten
    characters, and comparing two of them as text, the way the date
    filters do, compares year, then month, then day. *)
Theorem str_date_sorts_as_calendar (d1 d2 : pydate) :
  calendar d1 -> calendar d2 ->
  String.length (str_date d1) = 10%nat /\
  String.compare (str_date d1) (str_date d2) = date_compare d1 d2 /\
  (Text.le (str_date d1) (str_date d2) = true <-> date_compare d1 d2 <> Gt).
Proof.
  intros (Hy1 & Hm1 & Hd1) (Hy2 & Hm2 & Hd2).
  assert (P4 : 10 ^ 4 = 100 * 100) by reflexivity.
  assert (P2 : 10 ^ 2 = 100) by reflexivity.
  assert (Hc : String.compare (str_date d1) (str_date d2) = date_compare d1 d2).
  { unfold str_date, date_compare.
    rewrite compare_app_same_length
      by (rewrite !pad_length; auto; lia).
    rewrite pad_compare by lia.
    destruct (Nat.compare (year d1) (year d2)); auto.
    change ("-" ++ ?s) with (String "-" s). cbn [String.compare].
    change (Ascii.compare "-" "-") with Eq. cbv iota.
    rewrite compare_app_same_length
      by (rewrite !pad_length; auto; lia).
    rewrite pad_compare by lia.
    destruct (Nat.compare (month d1) (month d2)); auto.
    change ("-" ++ ?s) with (String "-" s). cbn [String.compare].
    change (Ascii.compare "-" "-") with Eq. cbv iota.
    apply pad_compare; lia. }
  split; [|split; [exact Hc|]].
  - unfold str_date.
    rewrite !length_app_string, !pad_length by lia. reflexivity.
  - unfold Text.le, String.leb. rewrite Hc.
    destruct (date_compare d1 d2); split; congruence.
Qed.

Lemma decimal_from_app (acc : nat) (a b : string) :
  decimal_from acc (a ++ b)
  = match decimal_from acc a with
    | Some v => decimal_from v b
    | None => None
    end.
Proof.
  revert acc. induction a as [|c a IH]; intros acc; [reflexivity|].
  cbn [append decimal_from]. cbv zeta.
  destruct (Nat.leb 48 (nat_of_ascii c) && Nat.leb (nat_of_ascii c) 57);
    auto.
Qed.

Lemma digit_code (n : nat) : nat_of_ascii (Text.digit n) = 48 + n mod 10.
Proof.
  unfold Text.digit. apply nat_ascii_embedding.
  pose proof (Nat.mod_upper_bound n 10 ltac:(lia)). lia.
Qed.

Lemma decimal_numeral (w n acc : nat) :
  n < 10 ^ w ->
  decimal_from acc (string_of_list_ascii (numeral w n))
  = Some (acc * 10 ^ w + n).
Proof.
  revert n acc. induction w as [|w IH]; intros n acc Hn.
  - cbn in Hn. cbn. f_equal. lia.
  - cbn [numeral]. rewrite string_of_list_app, decimal_from_app.
    rewrite IH by now apply div10_lt_pow.
    cbn [string_of_list_ascii decimal_from]. cbv zeta.
    rewrite digit_code.
    pose proof (Nat.mod_upper_bound n 10 ltac:(lia)) as Hm.
    assert (Hr : Nat.leb 48 (48 + n mod 10) && Nat.leb (48 + n mod 10) 57
                 = true).
    { apply andb_true_iff. split; apply Nat.leb_le; lia. }
    rewrite Hr. f_equal. rewrite Nat.pow_succ_r'.
    pose proof (Nat.div_mod_eq n 10). nia.
Qed.

Lemma pad_decimal (w n : nat) :
  1 <= w -> n < 10 ^ w -> decimal (Text.pad w n) = Some n.
Proof.
  intros Hw Hn. unfold decimal. rewrite pad_numeral by assumption.
  rewrite decimal_numeral by assumption. f_equal.
Qed.

(** [str(date)] is the ISO form of the date. *)
Lemma str_date_iso (d : pydate) : calendar d -> iso_date d (str_date d).
Proof.
  intros (Hy & Hm & Hd).
  assert (P4 : 10 ^ 4 = 100 * 100) by reflexivity.
  assert (P2 : 10 ^ 2 = 100) by reflexivity.
  exists (Text.pad 4 (year d)), (Text.pad 2 (month d)), (Text.pad 2 (day d)).
  split; [reflexivity|].
  rewrite !pad_length, !pad_decimal by lia. repeat split.
Qed.

End Dates.

(* ================================================================= *)
(** ** The date of a new expense *)

Section StoredDate.

Context {R : Type} {real : Real R}.

Local Open Scope string_scope.

(** C4.  When [add_expense] reports success with id [i], the row it
    has stored under [i] carries, if [date] is [None], the calendar
    date of the clock at the call in ISO format (four digits of year,
    two of month, two of day, hyphens between, each field reading as
    the number it stands for), and otherwise exactly the string passed
    as [date]; with no fault and room for one more rowid the call does
    report success. *)
Theorem add_expense_stores_date
        (env : Env) (amount : R) (category subcategory note : string)
        (date : option string) (db : Store (R:=R)) :
  (forall i,
     snd (add_expense env amount category subcategory note date db)
       = Return (success i) ->
     exists stored : string,
       expenses (fst (add_expense env amount category subcategory note date db))
       = (expenses db ++ [mkRow i stored amount category subcategory note])%list
       /\ match date with
          | Some d => stored = d
          | None =>
              calendar (today env) ->
              exists y m dd : string,
                stored = y ++ "-" ++ m ++ "-" ++ dd /\
                String.length y = 4%nat /\ String.length m = 2%nat /\
                String.length dd = 2%nat /\
                decimal y = Some (year (today env)) /\
                decimal m = Some (month (today env)) /\
                decimal dd = Some (day (today env))
          end) /\
  (quiet env -> high_water db < MAX_ROWID ->
   snd (add_expense env amount category subcategory note date db)
     = Return (success (high_water db + 1))).
Proof.
  destruct (add_expense_stores_row env amount category subcategory note date db)
    as (Hrow & Hsucc).
  split; [|exact Hsucc].
  intros i Hi. eexists. split; [exact (Hrow i Hi)|].
  destruct date as [d|]; [reflexivity|].
  intros Hcal. exact (str_date_iso (today env) Hcal).
Qed.

End StoredDate.

(* ================================================================= *)
(** ** What the handlers let through, and the range of the ids *)

Section Bounds.

Context {R : Type} {real : Real R}.

Local Open Scope string_scope.

Lemma uncaught_fault (env : Env) (c : call) (db : Store (R:=R)) (e : exn) :
  snd (attempt env c db) = Raise e ->
  isinstance e Exception = false ->
  invoke env c db = (db, Raise e).
Proof.
  intros Hraise Hcls.
  destruct c as [a c sc n d|s x|s x c|]; cbn [invoke attempt] in *.
  - fold (stored_date env d) in Hraise.
    destruct (add_expense_ends env a c sc n d db)
      as [(Hb & H)|[(y & Hb & _ & Hi & H)|(y & Hb & _ & Hi & H)]];
      cbv zeta in Hb; rewrite Hb in Hraise; cbn [snd] in Hraise.
    + discriminate.
    + injection Hraise as ->. congruence.
    + injection Hraise as ->. exact H.
  - destruct (list_expenses_ends env s x db)
      as [(l & Hb & H)|[(y & Hb & _ & Hi & H)|(y & Hb & _ & Hi & H)]];
      rewrite Hb in Hraise; cbn [snd] in Hraise.
    + discriminate.
    + injection Hraise as ->. congruence.
    + injection Hraise as ->. exact H.
  - destruct (summarize_ends env s x c db)
      as [(l & Hb & H)|[(y & Hb & _ & Hi & H)|(y & Hb & _ & Hi & H)]];
      rewrite Hb in Hraise; cbn [snd] in Hraise.
    + discriminate.
    + injection Hraise as ->. congruence.
    + injection Hraise as ->. exact H.
  - rewrite categories_ends. rewrite categories_try_ends in Hraise.
    destruct (read_text env) as [content|y]; [discriminate|].
    destruct (isinstance y FileNotFoundError); [discriminate|].
    cbn [snd] in Hraise. injection Hraise as ->. now rewrite Hcls.
Qed.

(** X13.  A fault that is no [Exception] is never turned into data:
    when what a call of [add], [list], [summarize] or [categories]
    attempts raises such a fault, the call raises the same fault; and
    [list], [summarize] and [categories] leave the store as it was. *)
Theorem other_faults_pass_through
        (env : Env) (c : call) (db : Store (R:=R)) (e : exn) :
  snd (attempt env c db) = Raise e ->
  isinstance e Exception = false ->
  snd (invoke env c db) = Raise e /\
  match c with
  | Add _ _ _ _ _ => True
  | _ => fst (invoke env c db) = db
  end.
Proof.
  intros Hraise Hcls. rewrite (uncaught_fault env c db e Hraise Hcls).
  split; [reflexivity|]. now destruct c.
Qed.

Lemma high_water_nonneg (db : Store (R:=R)) : 0 <= high_water db.
Proof.
  unfold high_water. pose proof (max_rowid_nonneg (expenses db)). lia.
Qed.

Lemma add_expense_success_room (env : Env) (a : R) (c sc n : string)
      (d : option string) (db : Store (R:=R)) (i : Z) :
  snd (add_expense env a c sc n d db) = Return (success i) ->
  i = high_water db + 1 /\ high_water db < MAX_ROWID.
Proof.
  unfold add_expense, Py.try_except. rewrite add_expense_try_cases.
  assert (Hno : forall x,
    snd (if isinstance x Exception then add_expense_except x db
         else (db, Raise x)) = Return (success i) -> False).
  { intros x. destruct (isinstance x Exception); [|discriminate].
    apply add_expense_except_not_success. }
  destruct (connect_fault env) as [x|]; [intros Hs; now apply Hno in Hs|].
  destruct (execute_fault env) as [x|]; [intros Hs; now apply Hno in Hs|].
  destruct (Z.leb_spec MAX_ROWID (high_water db)) as [Hfull|Hroom];
    [intros Hs; now apply Hno in Hs|].
  destruct (commit_fault env) as [x|]; [intros Hs; now apply Hno in Hs|].
  cbn [snd]. intros Hs. injection Hs as <-. auto.
Qed.

Lemma served_id_in_range (ev : event) (db : Store (R:=R)) (i : Z) :
  added_id (snd (serve ev db)) = Some i -> 1 <= i <= MAX_ROWID.
Proof.
  intros H. pose proof (proj2 (serve_climbs ev db) i H) as [Hlo _].
  pose proof (high_water_nonneg db) as H0. split; [lia|].
  apply added_id_iff_success in H.
  destruct ev as [env|env [a c sc n d|s e|s e c|]]; cbn [serve invoke] in H.
  - unfold Py.bind in H. destruct (init_db env db) as [db' [[]|x]];
      discriminate.
  - apply add_expense_success_room in H. lia.
  - destruct (list_expenses_ends env s e db)
      as [(l & _ & E)|[(x & _ & _ & _ & E)|(x & _ & _ & _ & E)]];
      rewrite E in H; discriminate.
  - destruct (summarize_ends env s e c db)
      as [(l & _ & E)|[(x & _ & _ & _ & E)|(x & _ & _ & _ & E)]];
      rewrite E in H; discriminate.
  - now apply (proj2 (categories_frame env db)) in H.
Qed.

(** X14.  From a store whose row counter is not negative, every id
    that [add_expense] reports, over any sequence of module loads and
    calls, is a positive 64-bit rowid: at least 1 and at most
    9223372036854775807. *)
Theorem added_ids_in_range (events : list event) (db : Store (R:=R)) :
  0 <= sqlite_sequence db ->
  Forall (fun i => 1 <= i <= 9223372036854775807)
         (added_ids (snd (run events db))).
Proof.
  intros _. revert db. induction events as [|ev rest IH]; intros db; [constructor|].
  rewrite run_cons. cbn [snd added_ids].
  destruct (added_id (snd (serve ev db))) as [i|] eqn:E; [|apply IH].
  constructor; [|apply IH].
  now apply served_id_in_range in E.
Qed.

End Bounds.

(* ================================================================= *)
(** ** Concrete runs *)

Local Open Scope string_scope.

Example str_date_2024_01_02 : str_date (mkDate 2024 1 2) = "2024-01-02"%string.
Proof. reflexivity. Qed.

Example str_date_0987_12_31 : str_date (mkDate 987 12 31) = "0987-12-31"%string.
Proof. reflexivity. Qed.

Lemma calm_is_quiet : quiet calm.
Proof. repeat split. Qed.

Example scenario_is_added :
  fst (run [Request calm (Add 1050 "Food & Dining" "" "" (Some "2024-01-01"));
            Request calm (Add 500 "Food & Dining" "" "" (Some "2024-01-02"));
            Request calm (Add 2000 "Transportation" "" "" (Some "2024-01-01"))]
           fresh) = scenario.
Proof. vm_compute. reflexivity. Qed.

Example scenario_summary :
  snd (summarize calm None None None scenario)
  = Return (VList [summary_mapping (mkSummary "Transportation" 2000 1);
                   summary_mapping (mkSummary "Food & Dining" 1550 2)]).
Proof. vm_compute. reflexivity. Qed.

Example scenario_listing :
  snd (list_expenses calm None None scenario)
  = Return (VList (map row_mapping
      [mkRow 2 "2024-01-02" 500 "Food & Dining" "" "";
       mkRow 3 "2024-01-01" 2000 "Transportation" "" "";
       mkRow 1 "2024-01-01" 1050 "Food & Dining" "" ""])).
Proof. vm_compute. reflexivity. Qed.

(** A fault that is no [Exception] passes through [except Exception]. *)
Example cancellation_passes_through :
  snd (list_expenses
         (mkEnv (mkDate 2026 11 4) None
                (Some (mkExn BaseException "CancelledError")) None None
                (Return "{}") "")
         None None scenario)
  = Raise (mkExn BaseException "CancelledError").
Proof. vm_compute. reflexivity. Qed.

(** The default document, line by line. *)
Example default_document :
  json_dumps (JDict [("categories", JList (map JStr default_labels))]) 2
  = String.concat newline
      ["{";
       "  " ++ quote ++ "categories" ++ quote ++ ": [";
       "    " ++ quote ++ "Food & Dining" ++ quote ++ ",";
       "    " ++ quote ++ "Transportation" ++ quote ++ ",";
       "    " ++ quote ++ "Shopping" ++ quote ++ ",";
       "    " ++ quote ++ "Entertainment" ++ quote ++ ",";
       "    " ++ quote ++ "Bills & Utilities" ++ quote ++ ",";
       "    " ++ quote ++ "Healthcare" ++ quote ++ ",";
       "    " ++ quote ++ "Travel" ++ quote ++ ",";
       "    " ++ quote ++ "Education" ++ quote ++ ",";
       "    " ++ quote ++ "Business" ++ quote ++ ",";
       "    " ++ quote ++ "Other" ++ quote;
       "  ]";
       "}"].
Proof. vm_compute. reflexivity. Qed.

(** C1, runs of the amended statement: both bounds, and a start
    bound alone. *)
Lemma list_expenses_lists_nonempty_bounds_run :
  quiet calm /\
  snd (list_expenses calm (Some "2024-01-02") (Some "2025") scenario)
    = Return (VList (map row_mapping
        [mkRow 2 "2024-01-02" 500 "Food & Dining" "" ""])) /\
  snd (list_expenses calm (Some "2024-01-01") (Some "2024-01-01") scenario)
    = Return (VList (map row_mapping
        [mkRow 3 "2024-01-01" 2000 "Transportation" "" "";
         mkRow 1 "2024-01-01" 1050 "Food & Dining" "" ""])) /\
  (fst (list_expenses calm (Some "2024-01-02") (Some "2025") scenario)
     = scenario /\
   exists rs : list Row,
     snd (list_expenses calm (Some "2024-01-02") (Some "2025") scenario)
       = Return (VList (map row_mapping rs)) /\
     Permutation rs
       (filter (fun r =>
                  match nonempty_bound (Some "2024-01-02") with
                  | Some lo => String.leb lo (date r)
                  | None => true
                  end
                  && match nonempty_bound (Some "2025") with
                     | Some hi => String.leb (date r) hi
                     | None => true
                     end)
               (expenses scenario)) /\
     StronglySorted newest_first rs).
Proof.
  split; [exact calm_is_quiet|].
  split; [vm_compute; reflexivity|].
  split; [vm_compute; reflexivity|].
  exact (list_expenses_lists_nonempty_bounds
           calm (Some "2024-01-02") (Some "2025") scenario calm_is_quiet).
Defined.

(** C1 as stated fails: with [end_date=""] given, the rows with
    [date <= ""] are none, and [list_expenses] returns all three. *)
Lemma list_expenses_empty_end_date :
  filter (in_range None (Some "")) (expenses scenario) = [] /\
  snd (list_expenses calm None (Some "") scenario)
    = Return (VList (map row_mapping
        [mkRow 2 "2024-01-02" 500 "Food & Dining" "" "";
         mkRow 3 "2024-01-01" 2000 "Transportation" "" "";
         mkRow 1 "2024-01-01" 1050 "Food & Dining" "" ""])) /\
  ~ lists_exactly None (Some "") scenario
      (snd (list_expenses calm None (Some "") scenario)).
Proof.
  assert (Hnone : filter (in_range None (Some "")) (expenses scenario) = [])
    by (vm_compute; reflexivity).
  assert (Hout : snd (list_expenses calm None (Some "") scenario)
    = Return (VList (map row_mapping
        [mkRow 2 "2024-01-02" 500 "Food & Dining" "" "";
         mkRow 3 "2024-01-01" 2000 "Transportation" "" "";
         mkRow 1 "2024-01-01" 1050 "Food & Dining" "" ""])))
    by (vm_compute; reflexivity).
  split; [exact Hnone|]. split; [exact Hout|].
  intros (rs & Hrs & Hperm & _).
  rewrite Hnone in Hperm. apply Permutation_sym, Permutation_nil in Hperm.
  subst rs. rewrite Hout in Hrs. discriminate Hrs.
Qed.

(** C2, a run: the scenario of the specification. *)
Lemma summarize_all_categories_run :
  quiet calm /\
  snd (summarize calm None None None scenario)
    = Return (VList [summary_mapping (mkSummary "Transportation" 2000 1);
                     summary_mapping (mkSummary "Food & Dining" 1550 2)]) /\
  exists ss : list Summary,
    snd (summarize calm None None None scenario)
      = Return (VList (map summary_mapping ss)) /\
    NoDup (map s_category ss) /\
    (forall c, In c (map s_category ss) <->
               exists r, In r (expenses scenario) /\ category r = c) /\
    (forall s, In s ss ->
       total_amount s
       = real_sum (map amount
                       (filter (fun r => String.eqb (category r) (s_category s))
                               (expenses scenario))) /\
       count s
       = Z.of_nat (List.length
                     (filter (fun r => String.eqb (category r) (s_category s))
                             (expenses scenario)))) /\
    StronglySorted
      (fun a b => real_ge (total_amount a) (total_amount b) = true) ss.
Proof.
  split; [exact calm_is_quiet|].
  split; [vm_compute; reflexivity|].
  exact (summarize_all_categories calm scenario calm_is_quiet).
Defined.

Lemma locked_is_ordinary : ordinary locked.
Proof. repeat split. Qed.

(** C3, a run: an [add] against a store that cannot be written. *)
Lemma failures_are_returned_as_data_run :
  ordinary locked /\
  snd (invoke locked (Add 1050 "Food & Dining" "" "" None) scenario)
    = Return (error_dict readonly_message) /\
  (exists v, snd (invoke locked (Add 1050 "Food & Dining" "" "" None) scenario)
             = Return v).
Proof.
  split; [exact locked_is_ordinary|].
  split; [vm_compute; reflexivity|].
  exact (proj1 (failures_are_returned_as_data
                  locked (Add 1050 "Food & Dining" "" "" None) scenario
                  locked_is_ordinary)).
Defined.

Lemma calendar_2031_05_17 : calendar (today later).
Proof. unfold calendar. simpl. lia. Qed.

(** C4, three runs: no date on two different days, and a date that
    is no calendar date. *)
Lemma add_expense_stores_date_run :
  expenses (fst (add_expense later 1050 "Food & Dining" "" "" None fresh))
    = [mkRow 1 "2031-05-17" 1050 "Food & Dining" "" ""] /\
  expenses (fst (add_expense calm 1050 "Food & Dining" "" "" None fresh))
    = [mkRow 1 "2026-11-04" 1050 "Food & Dining" "" ""] /\
  expenses (fst (add_expense calm 1050 "Food & Dining" "" ""
                             (Some " next Friday ") fresh))
    = [mkRow 1 " next Friday " 1050 "Food & Dining" "" ""] /\
  (exists stored : string,
     expenses (fst (add_expense later 1050 "Food & Dining" "" "" None fresh))
     = (expenses fresh ++ [mkRow 1 stored 1050 "Food & Dining" "" ""])%list /\
     (calendar (today later) ->
      exists y m dd : string,
        stored = y ++ "-" ++ m ++ "-" ++ dd /\
        String.length y = 4%nat /\ String.length m = 2%nat /\
        String.length dd = 2%nat /\
        decimal y = Some (year (today later)) /\
        decimal m = Some (month (today later)) /\
        decimal dd = Some (day (today later)))).
Proof.
  split; [vm_compute; reflexivity|].
  split; [vm_compute; reflexivity|].
  split; [vm_compute; reflexivity|].
  exact (proj1 (add_expense_stores_date
                  later 1050 "Food & Dining" "" "" None fresh)
               1 eq_refl).
Defined.

(** C5, a run: a fourth expense after the three of the scenario. *)
Lemma store_only_grows_run :
  exists a k sc n d,
    Add 900 "Travel" "rail" "" (Some "2024-02-01") = Add a k sc n d /\
    expenses (fst (invoke calm (Add 900 "Travel" "rail" "" (Some "2024-02-01"))
                          scenario))
    = (expenses scenario ++ [mkRow 4 (stored_date calm d) a k sc n])%list.
Proof.
  exact (proj1 (store_only_grows
                  calm (Add 900 "Travel" "rail" "" (Some "2024-02-01")) scenario)
               4 eq_refl).
Defined.

(** C6, a run: the last row is deleted by a load of the module, and
    the next add does not get its id again. *)
Example ids_are_not_reused :
  added_ids (snd (run [Request calm (Add 700 "test" "" "" None);
                       Startup calm;
                       Request calm (Add 900 "Travel" "" "" None)]
                      scenario)) = [4; 6].
Proof. vm_compute. reflexivity. Qed.

(** C7, a run of the amended statement. *)
Lemma summarize_one_category_run :
  quiet calm /\ "Food & Dining" <> "" /\
  summary_of_category "Food & Dining" (given None) (given (Some "2024-01-01"))
    scenario
    (snd (summarize calm None (Some "2024-01-01") (Some "Food & Dining")
                    scenario)).
Proof.
  split; [exact calm_is_quiet|].
  split; [discriminate|].
  refine (summarize_one_category calm None (Some "2024-01-01") "Food & Dining"
                                 scenario calm_is_quiet _).
  discriminate.
Defined.

(** C7 as stated fails for the category string [""]:
    [summarize(category="")] returns a line for each category. *)
Lemma summarize_empty_category :
  snd (summarize calm None None (Some "") scenario)
    = Return (VList [summary_mapping (mkSummary "Transportation" 2000 1);
                     summary_mapping (mkSummary "Food & Dining" 1550 2)]) /\
  ~ summary_of_category "" None None scenario
      (snd (summarize calm None None (Some "") scenario)).
Proof.
  assert (Hout : snd (summarize calm None None (Some "") scenario)
    = Return (VList [summary_mapping (mkSummary "Transportation" 2000 1);
                     summary_mapping (mkSummary "Food & Dining" 1550 2)]))
    by (vm_compute; reflexivity).
  split; [exact Hout|].
  intros (ss & Hss & Hlen & _). rewrite Hout in Hss.
  injection Hss as Hmap. apply (f_equal (@List.length _)) in Hmap.
  rewrite length_map in Hmap. simpl in Hmap. lia.
Qed.



(** C9, a run: [end_date=""] lists the whole scenario. *)
Lemma empty_filter_is_absent_run :
  exists rs, snd (list_expenses calm None (Some "") scenario)
             = Return (VList (map row_mapping rs)) /\
             Permutation rs (expenses scenario) /\
             Sorting.ordered date_id_desc rs.
Proof.
  exact (proj2 (proj2 (proj2 (proj2 (proj2 (proj2 (proj2
           (empty_filter_is_absent calm None None None scenario)))))))
           calm_is_quiet).
Defined.

(** C10, a run: the user's row of category ['test'] is gone after a
    load of the module, which is therefore not data-preserving. *)
Lemma init_db_deletes_test_rows_run :
  init_db calm with_test_row
    = (mkStore [mkRow 1 "2024-01-01" 1050 "Food & Dining" "" ""] 3, Return tt) /\
  expenses (mkStore [mkRow 1 "2024-01-01" 1050 "Food & Dining" "" ""] 3)
    = filter (fun r => negb (String.eqb (category r) "test"))
             (expenses with_test_row) /\
  expenses (mkStore [mkRow 1 "2024-01-01" 1050 "Food & Dining" "" ""] 3)
    <> expenses with_test_row.
Proof.
  assert (Hrun : init_db calm with_test_row
    = (mkStore [mkRow 1 "2024-01-01" 1050 "Food & Dining" "" ""] 3, Return tt))
    by (vm_compute; reflexivity).
  split; [exact Hrun|]. split.
  - exact (proj1 (proj1 (init_db_deletes_test_rows calm with_test_row) _ Hrun)).
  - discriminate.
Defined.

(* ----------------------------------------------------------------- *)
(** *** Runs of the further properties *)

(** X1, a run: the store cannot be written when the module loads. *)
Lemma init_db_raise_rolls_back_run :
  init_db locked scenario
    = (scenario, Raise (mkExn Exception "attempt to write a READONLY database")) /\
  scenario = scenario /\
  fault_of locked (mkExn Exception "attempt to write a READONLY database").
Proof.
  split; [vm_compute; reflexivity|].
  exact (init_db_raise_rolls_back locked scenario scenario _ eq_refl).
Defined.

(** X2, a run: a load over the store with a user's ['test'] row. *)
Lemma init_db_uses_one_rowid_run :
  high_water (mkStore [mkRow 1 "2024-01-01" 1050 "Food & Dining" "" ""] 3)
    = high_water with_test_row + 1.
Proof.
  exact (proj1 (init_db_uses_one_rowid
                  calm with_test_row
                  (mkStore [mkRow 1 "2024-01-01" 1050 "Food & Dining" "" ""] 3)
                  eq_refl)).
Defined.

(** X3, a run: no rowid is left. *)
Lemma add_expense_when_rowids_run_out_run :
  MAX_ROWID <= high_water exhausted /\
  add_expense calm 1050 "Food & Dining" "" "" None exhausted
  = (exhausted, Return (error_dict "Database error: database or disk is full")).
Proof.
  assert (Hfull : MAX_ROWID <= high_water exhausted)
    by (vm_compute; discriminate).
  split; [exact Hfull|].
  exact (add_expense_when_rowids_run_out
           calm 1050 "Food & Dining" "" "" None exhausted
           eq_refl eq_refl Hfull).
Defined.

Lemma scenario_ids_distinct : NoDup (map id (expenses scenario)).
Proof.
  simpl. repeat constructor; simpl; intuition discriminate.
Qed.

(** X4, a run: an add, a load and another add over the scenario. *)
Lemma ids_stay_distinct_run :
  NoDup (map id (expenses (fst (run [Request calm (Add 700 "test" "" "" None);
                                     Startup calm;
                                     Request calm (Add 900 "Travel" "" "" None)]
                                    scenario)))).
Proof.
  exact (ids_stay_distinct _ scenario scenario_ids_distinct).
Defined.

(** X6, a run: nothing in the scenario is dated 2025 or later. *)
Lemma empty_results_iff_nothing_matches_run :
  quiet calm /\
  snd (list_expenses calm (Some "2025") None scenario) = Return (VList []).
Proof.
  split; [exact calm_is_quiet|].
  apply (proj1 (empty_results_iff_nothing_matches
                  calm (Some "2025") None None scenario calm_is_quiet)).
  intros r [<-|[<-|[<-|[]]]]; reflexivity.
Defined.

(** X7, a run: the bounds are the wrong way round. *)
Lemma inverted_range_selects_nothing_run :
  snd (list_expenses calm (Some "2024-12-31") (Some "2024-01-01") scenario)
    = Return (VList []) /\
  snd (summarize calm (Some "2024-12-31") (Some "2024-01-01") None scenario)
    = Return (VList []).
Proof.
  refine (inverted_range_selects_nothing
            calm "2024-12-31" "2024-01-01" None scenario
            calm_is_quiet _ _ eq_refl); discriminate.
Defined.

(** X8, a run: the fourth expense is listed with the three. *)
Lemma added_expense_is_listed_run :
  exists rs,
    snd (list_expenses calm None None
           (fst (add_expense calm 900 "Travel" "rail" "" (Some "2024-02-01")
                             scenario)))
      = Return (VList (map row_mapping rs)) /\
    Permutation rs
      (mkRow 4 (stored_date calm (Some "2024-02-01")) 900 "Travel" "rail" ""
         :: expenses scenario).
Proof.
  exact (added_expense_is_listed
           calm calm 900 "Travel" "rail" "" (Some "2024-02-01") scenario 4
           eq_refl calm_is_quiet).
Defined.

(** X9, a run: a third expense under ["Food & Dining"]. *)
Lemma added_expense_is_summarized_run :
  snd (summarize calm None None (Some "Food & Dining")
         (fst (add_expense calm 250 "Food & Dining" "" "" None scenario)))
  = Return (VList
      [summary_mapping
         (mkSummary "Food & Dining"
            (real_sum (map amount (group (expenses scenario) "Food & Dining")
                         ++ [250]))
            (Z.of_nat (List.length (group (expenses scenario) "Food & Dining"))
             + 1))]).
Proof.
  refine (added_expense_is_summarized
            calm calm 250 "Food & Dining" "" "" None scenario 4
            eq_refl calm_is_quiet _).
  discriminate.
Defined.

Lemma shuffled_is_scenario :
  Permutation (expenses scenario) (expenses shuffled).
Proof.
  simpl. eapply perm_trans; [apply perm_skip, perm_swap | apply perm_swap].
Qed.

(** X10, a run: the scenario and the same rows in another order. *)
Lemma listing_ignores_storage_order_run :
  snd (list_expenses calm None (Some "2024-01-01") scenario)
  = snd (list_expenses calm None (Some "2024-01-01") shuffled).
Proof.
  exact (listing_ignores_storage_order
           calm None (Some "2024-01-01") scenario shuffled
           calm_is_quiet scenario_ids_distinct shuffled_is_scenario).
Defined.

(** X11, a run: the scenario, unfiltered. *)
Lemma summary_counts_add_up_to_listing_run :
  exists ss rs,
    snd (summarize calm None None None scenario)
      = Return (VList (map summary_mapping ss)) /\
    snd (list_expenses calm None None scenario)
      = Return (VList (map row_mapping rs)) /\
    fold_right Z.add 0 (map count ss) = Z.of_nat (List.length rs).
Proof.
  exact (summary_counts_add_up_to_listing calm None None scenario
                                          calm_is_quiet).
Defined.

Lemma calendar_2024_12_31 : calendar (mkDate 2024 12 31).
Proof. unfold calendar. simpl. lia. Qed.

Lemma calendar_2025_01_01 : calendar (mkDate 2025 1 1).
Proof. unfold calendar. simpl. lia. Qed.

(** X12, a run: New Year's Eve sorts before New Year's Day. *)
Lemma str_date_sorts_as_calendar_run :
  String.compare (str_date (mkDate 2024 12 31)) (str_date (mkDate 2025 1 1))
  = date_compare (mkDate 2024 12 31) (mkDate 2025 1 1).
Proof.
  exact (proj1 (proj2 (str_date_sorts_as_calendar
                         (mkDate 2024 12 31) (mkDate 2025 1 1)
                         calendar_2024_12_31 calendar_2025_01_01))).
Defined.

(** X13, a run: a cancellation during a listing. *)
Lemma other_faults_pass_through_run :
  snd (invoke cancelled (ListExpenses None None) scenario)
    = Raise (mkExn BaseException "CancelledError") /\
  fst (invoke cancelled (ListExpenses None None) scenario) = scenario.
Proof.
  exact (other_faults_pass_through
           cancelled (ListExpenses None None) scenario
           (mkExn BaseException "CancelledError") eq_refl eq_refl).
Defined.

(** X14, a run: two adds and a load over the scenario. *)
Lemma added_ids_in_range_run :
  added_ids (snd (run [Request calm (Add 700 "test" "" "" None);
                       Startup calm;
                       Request calm (Add 900 "Travel" "" "" None)]
                      scenario)) = [4; 6] /\
  Forall (fun i => 1 <= i <= 9223372036854775807)
         (added_ids (snd (run [Request calm (Add 700 "test" "" "" None);
                               Startup calm;
                               Request calm (Add 900 "Travel" "" "" None)]
                              scenario))).
Proof.
  split; [vm_compute; reflexivity|].
  refine (added_ids_in_range _ scenario _). vm_compute. discriminate.
Defined.
